(** * The orchestrator agent of smolvlm-audio-transcription

    A shallow embedding of [src/orchestrator/orchestrator.py]: the rule
    table, the phrase buffer with its time window, the cooldown registry,
    the dispatch of matched actions as tasks and the connection to the PDF
    server, followed by the properties the specification states about them.

    Modelling choices.
    - A Python [str] is a [string]; its characters are code points below
      256, and [str.lower], [str.split] and [str.strip] are given for that
      range as Python defines them.
    - [time.time()] is an oracle [clock : nat -> Q]: the [n]-th call made by
      the process returns [clock n].  Timestamps are exact rationals, and
      the float literals [2.0] and [3.0] are the rationals 2 and 3.
    - Code that mutates the agent or the module globals is a computation in
      a state and exception monad over the record [world].
    - [json.loads] and the network are not code of this repository: the
      decoder is a parameter, and whether a connect or a send fails is an
      argument of the function that performs it.
    - The process is a transition system: a message is handled, a task
      created by [asyncio.create_task] runs, or the PDF server is dialled,
      in any order; a task runs in one step. *)

From Stdlib Require Import Ascii String QArith Lqa Sorted.
From stdpp Require Import gmap strings list sorting.

Local Open Scope string_scope.
Local Open Scope list_scope.

(** ** Python strings *)

Module Py.

(** [str.isspace] on one code point below 256. *)
Definition isspace (c : ascii) : bool :=
  let n := nat_of_ascii c in
  (((9 <=? n) && (n <=? 13)) || ((28 <=? n) && (n <=? 32))
   || (n =? 133) || (n =? 160))%nat.

(** [str.lower] on one code point below 256. *)
Definition lower_char (c : ascii) : ascii :=
  let n := nat_of_ascii c in
  if (((65 <=? n) && (n <=? 90))
      || ((192 <=? n) && (n <=? 222) && negb (n =? 215)))%nat
  then ascii_of_nat (n + 32)%nat else c.

Fixpoint lower (s : string) : string :=
  match s with
  | EmptyString => EmptyString
  | String c s' => String (lower_char c) (lower s')
  end.

Definition is_empty (s : string) : bool :=
  match s with EmptyString => true | _ => false end.

(** [s.split()]: the maximal runs of characters that are not white
    space; [cur] is the run being read. *)
Fixpoint split_from (cur s : string) : list string :=
  match s with
  | EmptyString => if is_empty cur then [] else [cur]
  | String c s' =>
      if isspace c
      then (if is_empty cur then split_from "" s'
            else cur :: split_from "" s')
      else split_from (cur +:+ String c "") s'
  end.

Definition split (s : string) : list string := split_from "" s.

Fixpoint lstrip (s : string) : string :=
  match s with
  | String c s' => if isspace c then lstrip s' else s
  | EmptyString => EmptyString
  end.

Fixpoint rstrip (s : string) : string :=
  match s with
  | EmptyString => EmptyString
  | String c s' =>
      let r := rstrip s' in
      if isspace c && is_empty r then EmptyString else String c r
  end.

Definition strip (s : string) : string := rstrip (lstrip s).

(** [sep.join(l)] *)
Definition join (sep : string) (l : list string) : string :=
  String.concat sep l.

(** [t in s] on strings: [t] occurs in [s] as a contiguous run. *)
Fixpoint str_in (t s : string) : bool :=
  String.prefix t s
  || match s with
     | EmptyString => false
     | String _ s' => str_in t s'
     end.

(** [s[:n]] *)
Definition take (n : nat) (s : string) : string := String.substring 0 n s.

End Py.

(** ** Decoded JSON and the dynamic checks the code relies on *)

#[warnings="-register-all"]
Inductive json : Type :=
| JNull
| JBool (b : bool)
| JNum (q : Q)
| JStr (s : string)
| JArr (l : list json)
| JObj (kvs : list (string * json)).

Inductive exn : Type :=
| TypeError
| AttributeError
| IndexError.

(** Truth value of a decoded value, as [if data:] and [not source] take it. *)
Definition truthy (v : json) : bool :=
  match v with
  | JNull => false
  | JBool b => b
  | JNum q => negb (Qeq_bool q 0)
  | JStr s => negb (Py.is_empty s)
  | JArr l => match l with [] => false | _ => true end
  | JObj kvs => match kvs with [] => false | _ => true end
  end.

(** [d.get(k, default)] on a dict, kept as its list of items. *)
Fixpoint dict_get (k : string) (d : list (string * json)) (default : json) : json :=
  match d with
  | [] => default
  | (k', v) :: d' => if String.eqb k k' then v else dict_get k d' default
  end.

Definition is_str (s : string) (v : json) : bool :=
  match v with JStr s' => String.eqb s s' | _ => false end.

(** [k in data] for a string [k]: key membership on a dict, element
    membership on a list, substring on a string; [None] is the [TypeError]
    every other value raises. *)
Definition py_in (k : string) (data : json) : option bool :=
  match data with
  | JObj kvs => Some (existsb (fun kv => String.eqb k (fst kv)) kvs)
  | JArr l => Some (existsb (is_str k) l)
  | JStr s => Some (Py.str_in k s)
  | _ => None
  end.

(** ** The rule table *)

Record rule : Type := {
  trigger : string;
  action : string;
  params : list (string * string)
}.

Definition _initialize_rules : gmap string (list rule) :=
  <[ "audio_stt" :=
       [ {| trigger := "open presentation"; action := "OPEN_PRESENTATION"; params := [] |};
         {| trigger := "next"; action := "NEXT_SLIDE"; params := [] |};
         {| trigger := "previous"; action := "PREVIOUS_SLIDE"; params := [] |} ] ]>
  (<[ "vision_vlm" :=
       [ {| trigger := "cardboard"; action := "ZOOM_ON_OBJECT";
            params := [("target", "cardboard")] |};
         {| trigger := "person"; action := "ZOOM_ON_OBJECT";
            params := [("target", "person")] |};
         {| trigger := "bottle"; action := "ZOOM_ON_OBJECT";
            params := [("target", "bottle")] |} ] ]>
  (<[ "gesture" :=
       [ {| trigger := "next"; action := "NEXT_SLIDE"; params := [] |};
         {| trigger := "previous"; action := "PREVIOUS_SLIDE"; params := [] |} ] ]>
   ∅)).

(** ** The agent, the module globals and the environment *)

Record OrchestratorAgent : Type := {
  rules : gmap string (list rule);
  phrase_buffer : list string;
  phrase_timestamps : list Q;
  triggered_phrases : gmap string Q
}.

(** [deque(maxlen=10)] *)
Definition maxlen : nat := 10.

(** [self.phrase_window], set once by [__init__]. *)
Definition phrase_window : Q := 3.

(** The default of the [cooldown] argument of [_was_recently_triggered];
    no call passes another value. *)
Definition cooldown : Q := 2.

Definition __init__ : OrchestratorAgent :=
  {| rules := _initialize_rules;
     phrase_buffer := [];
     phrase_timestamps := [];
     triggered_phrases := ∅ |}.

(** A coroutine handed to [asyncio.create_task]: the arguments of
    [_delegate_action_async], and [t_tick], the number of [time.time()]
    calls made before the task was created (not a value of the program: it
    dates the creation). *)
Record task : Type := {
  t_source : string;
  t_action : string;
  t_params : list (string * string);
  t_content : string;
  t_tick : nat
}.

(** What [print] writes, one constructor per message of the code. *)
Inductive line : Type :=
| PrintEvent (source : json) (content : string)
| PrintPhraseBuffer (recent_phrase : string)
| PrintMatched (trigger recent_phrase : string)
| PrintCooldown (trigger : string)
| PrintBanner
| PrintIntent (source : string)
| PrintTriggerContent (content : string)
| PrintDelegating (action : string) (params : list (string * string))
| PrintSent (action : string)
| PrintSendFailed
| PrintConnected
| PrintConnectFailed
| PrintSlideControlUnavailable
| PrintInvalidFormat (message : string)
| PrintJSONError
| PrintNewAgent (client : nat)
| PrintReceived (source content : json)
| PrintClosed (client : nat)
| PrintError (e : exn)
| PrintDisconnected (client : nat).

(** The message [json.dumps] builds in [send_to_pdf_server]. *)
Record command : Type := {
  c_action : string;
  c_params : list (string * string)
}.

Record world : Type := {
  self : OrchestratorAgent;
  CONNECTED_CLIENTS : gset nat;
  (** [None], or the connection object, named by the number of the
      [websockets.connect] call that returned it. *)
  PDF_SERVER_CONNECTION : option nat;
  (** number of [time.time()] calls made so far *)
  ticks : nat;
  (** tasks created by [asyncio.create_task], oldest first *)
  tasks : list task;
  (** number of tasks that have run *)
  tasks_run : nat;
  stdout : list line;
  (** messages handed to the PDF server, oldest first *)
  wire : list command;
  (** number of [websockets.connect] calls made so far *)
  connects : nat
}.

Definition with_self (f : OrchestratorAgent -> OrchestratorAgent) (w : world) : world :=
  {| self := f (self w);
     CONNECTED_CLIENTS := CONNECTED_CLIENTS w;
     PDF_SERVER_CONNECTION := PDF_SERVER_CONNECTION w;
     ticks := ticks w; tasks := tasks w; tasks_run := tasks_run w;
     stdout := stdout w; wire := wire w; connects := connects w |}.

Definition with_clients (f : gset nat -> gset nat) (w : world) : world :=
  {| self := self w;
     CONNECTED_CLIENTS := f (CONNECTED_CLIENTS w);
     PDF_SERVER_CONNECTION := PDF_SERVER_CONNECTION w;
     ticks := ticks w; tasks := tasks w; tasks_run := tasks_run w;
     stdout := stdout w; wire := wire w; connects := connects w |}.

Definition with_connection (c : option nat) (w : world) : world :=
  {| self := self w;
     CONNECTED_CLIENTS := CONNECTED_CLIENTS w;
     PDF_SERVER_CONNECTION := c;
     ticks := ticks w; tasks := tasks w; tasks_run := tasks_run w;
     stdout := stdout w; wire := wire w; connects := connects w |}.

Definition with_ticks (n : nat) (w : world) : world :=
  {| self := self w;
     CONNECTED_CLIENTS := CONNECTED_CLIENTS w;
     PDF_SERVER_CONNECTION := PDF_SERVER_CONNECTION w;
     ticks := n; tasks := tasks w; tasks_run := tasks_run w;
     stdout := stdout w; wire := wire w; connects := connects w |}.

Definition with_tasks (l : list task) (w : world) : world :=
  {| self := self w;
     CONNECTED_CLIENTS := CONNECTED_CLIENTS w;
     PDF_SERVER_CONNECTION := PDF_SERVER_CONNECTION w;
     ticks := ticks w; tasks := l; tasks_run := tasks_run w;
     stdout := stdout w; wire := wire w; connects := connects w |}.

Definition with_tasks_run (n : nat) (w : world) : world :=
  {| self := self w;
     CONNECTED_CLIENTS := CONNECTED_CLIENTS w;
     PDF_SERVER_CONNECTION := PDF_SERVER_CONNECTION w;
     ticks := ticks w; tasks := tasks w; tasks_run := n;
     stdout := stdout w; wire := wire w; connects := connects w |}.

Definition with_stdout (l : list line) (w : world) : world :=
  {| self := self w;
     CONNECTED_CLIENTS := CONNECTED_CLIENTS w;
     PDF_SERVER_CONNECTION := PDF_SERVER_CONNECTION w;
     ticks := ticks w; tasks := tasks w; tasks_run := tasks_run w;
     stdout := l; wire := wire w; connects := connects w |}.

Definition with_wire (l : list command) (w : world) : world :=
  {| self := self w;
     CONNECTED_CLIENTS := CONNECTED_CLIENTS w;
     PDF_SERVER_CONNECTION := PDF_SERVER_CONNECTION w;
     ticks := ticks w; tasks := tasks w; tasks_run := tasks_run w;
     stdout := stdout w; wire := l; connects := connects w |}.

Definition with_connects (n : nat) (w : world) : world :=
  {| self := self w;
     CONNECTED_CLIENTS := CONNECTED_CLIENTS w;
     PDF_SERVER_CONNECTION := PDF_SERVER_CONNECTION w;
     ticks := ticks w; tasks := tasks w; tasks_run := tasks_run w;
     stdout := stdout w; wire := wire w; connects := n |}.

(** The process as [main] finds it: a fresh agent, nobody connected, no
    call made yet. *)
Definition boot : world :=
  {| self := __init__;
     CONNECTED_CLIENTS := ∅;
     PDF_SERVER_CONNECTION := None;
     ticks := 0; tasks := []; tasks_run := 0;
     stdout := []; wire := []; connects := 0 |}.

(** ** Computations: state and exceptions *)

Inductive result (A : Type) : Type :=
| Ok (a : A)
| Raise (e : exn).
Arguments Ok {A} a.
Arguments Raise {A} e.

Definition M (A : Type) : Type := world -> result A * world.

Definition ret {A} (a : A) : M A := fun w => (Ok a, w).

Definition bind {A B} (m : M A) (k : A -> M B) : M B :=
  fun w => match m w with
           | (Ok a, w') => k a w'
           | (Raise e, w') => (Raise e, w')
           end.

Definition raise {A} (e : exn) : M A := fun w => (Raise e, w).

Definition modify (f : world -> world) : M unit := fun w => (Ok tt, f w).

Definition gets {A} (f : world -> A) : M A := fun w => (Ok (f w), w).

Declare Scope py_scope.
Delimit Scope py_scope with py.
Notation "x <- c ;; k" := (bind c (fun x => k))
  (at level 100, c at next level, right associativity) : py_scope.
Notation "c ;; k" := (bind c (fun _ => k))
  (at level 100, right associativity) : py_scope.
Local Open Scope py_scope.

(** The state a computation leaves and the value it returns. *)
Definition exec {A} (m : M A) (w : world) : world := snd (m w).
Definition eval {A} (m : M A) (w : world) : result A := fst (m w).

(** [for x in l: body(x)] *)
Fixpoint for_each {A} (l : list A) (body : A -> M unit) : M unit :=
  match l with
  | [] => ret tt
  | x :: l' => body x ;; for_each l' body
  end.

Definition print (l : line) : M unit :=
  modify (fun w => with_stdout (stdout w ++ [l]) w).

(** [deque.append] on a deque built with [maxlen]: a full deque drops its
    leftmost item. *)
Definition deque_append {A} (x : A) (d : list A) : list A :=
  if (maxlen <=? length d)%nat then tail d ++ [x] else d ++ [x].

(** ** The methods of [OrchestratorAgent] *)

Section Orchestrator.

(** [clock n] is what the [n]-th call of [time.time()] returns. *)
Variable clock : nat -> Q.

(** [json.loads] on a text message; [None] is [json.JSONDecodeError]. *)
Variable json_loads : string -> option json.

Definition time_time : M Q :=
  fun w => (Ok (clock (ticks w)), with_ticks (S (ticks w)) w).

Definition set_phrase_buffer (l : list string) : M unit :=
  modify (with_self (fun a =>
    {| rules := rules a;
       phrase_buffer := l;
       phrase_timestamps := phrase_timestamps a;
       triggered_phrases := triggered_phrases a |})).

Definition set_phrase_timestamps (l : list Q) : M unit :=
  modify (with_self (fun a =>
    {| rules := rules a;
       phrase_buffer := phrase_buffer a;
       phrase_timestamps := l;
       triggered_phrases := triggered_phrases a |})).

(** [self.phrase_timestamps.popleft()] and [self.phrase_buffer.popleft()];
    an empty deque raises [IndexError]. *)
Definition popleft_timestamps : M unit :=
  stamps <- gets (fun w => phrase_timestamps (self w)) ;;
  match stamps with
  | [] => raise IndexError
  | _ :: stamps' => set_phrase_timestamps stamps'
  end.

Definition popleft_buffer : M unit :=
  buffer <- gets (fun w => phrase_buffer (self w)) ;;
  match buffer with
  | [] => raise IndexError
  | _ :: buffer' => set_phrase_buffer buffer'
  end.

(** The [while] of [_clean_old_phrases]; [stamps] is
    [self.phrase_timestamps] as it stands when the condition is tested,
    so every turn removes its head. *)
Fixpoint clean_loop (current_time : Q) (stamps : list Q) : M unit :=
  match stamps with
  | [] => ret tt
  | t0 :: stamps' =>
      if QMicromega.Qlt_bool phrase_window (current_time - t0)
      then popleft_timestamps ;; popleft_buffer ;;
           clean_loop current_time stamps'
      else ret tt
  end.

Definition _clean_old_phrases : M unit :=
  current_time <- time_time ;;
  stamps <- gets (fun w => phrase_timestamps (self w)) ;;
  clean_loop current_time stamps.

Definition _get_recent_phrase : M string :=
  _clean_old_phrases ;;
  buffer <- gets (fun w => phrase_buffer (self w)) ;;
  ret (Py.lower (Py.join " " buffer)).

Definition _was_recently_triggered (action : string) : M bool :=
  current_time <- time_time ;;
  registry <- gets (fun w => triggered_phrases (self w)) ;;
  match registry !! action with
  | Some t =>
      if QMicromega.Qlt_bool (current_time - t) cooldown
      then ret true else ret false
  | None => ret false
  end.

Definition _mark_triggered (action : string) : M unit :=
  now <- time_time ;;
  modify (with_self (fun a =>
    {| rules := rules a;
       phrase_buffer := phrase_buffer a;
       phrase_timestamps := phrase_timestamps a;
       triggered_phrases := <[action := now]> (triggered_phrases a) |})).

(** [asyncio.create_task(self._delegate_action_async(source, action,
    params, content))]: the coroutine is queued, not run. *)
Definition create_task (source action : string)
    (params : list (string * string)) (content : string) : M unit :=
  modify (fun w =>
    with_tasks (tasks w ++ [ {| t_source := source; t_action := action;
                                t_params := params; t_content := content;
                                t_tick := ticks w |} ]) w).

(** [self.phrase_buffer.append(word)] and
    [self.phrase_timestamps.append(time.time())] *)
Definition append_word (word : string) : M unit :=
  buffer <- gets (fun w => phrase_buffer (self w)) ;;
  set_phrase_buffer (deque_append word buffer) ;;
  now <- time_time ;;
  stamps <- gets (fun w => phrase_timestamps (self w)) ;;
  set_phrase_timestamps (deque_append now stamps).

(** The body of [for rule in source_rules]. *)
Definition check_rule (source recent_phrase : string) (r : rule) : M unit :=
  let trigger := Py.lower (trigger r) in
  let action := action r in
  let params := params r in
  if Py.str_in trigger recent_phrase then
    recently <- _was_recently_triggered action ;;
    if negb recently then
      print (PrintMatched trigger recent_phrase) ;;
      _mark_triggered action ;;
      create_task source action params recent_phrase
    else
      print (PrintCooldown trigger)
  else ret tt.

(** [for rule in source_rules: ...] *)
Definition check_rules (source recent_phrase : string) (source_rules : list rule)
  : M unit :=
  for_each source_rules (check_rule source recent_phrase).

Definition apply_rules (data : list (string * json)) : M unit :=
  let source := dict_get "source" data JNull in
  match dict_get "content" data (JStr "") with
  | JStr c =>
      let content := Py.strip c in
      print (PrintEvent source content) ;;
      if negb (truthy source) || Py.is_empty content then ret tt
      else
        recent_phrase <-
          (if is_str "audio_stt" source then
             let words := Py.split (Py.lower content) in
             for_each words append_word ;;
             recent_phrase <- _get_recent_phrase ;;
             print (PrintPhraseBuffer recent_phrase) ;;
             ret recent_phrase
           else ret (Py.lower content)) ;;
        match source with
        | JStr src =>
            source_rules <- gets (fun w => default [] (rules (self w) !! src)) ;;
            check_rules src recent_phrase source_rules
        | JArr _ | JObj _ => raise TypeError   (* unhashable key *)
        | _ => ret tt                          (* no rule under such a key *)
        end
  | _ => raise AttributeError                  (* no [strip] on that value *)
  end.

Definition parse_message (message : string) : M (option json) :=
  match json_loads message with
  | Some data =>
      match py_in "source" data with
      | None => raise TypeError
      | Some false => print (PrintInvalidFormat message) ;; ret None
      | Some true =>
          match py_in "content" data with
          | None => raise TypeError
          | Some false => print (PrintInvalidFormat message) ;; ret None
          | Some true => ret (Some data)
          end
      end
  | None => print PrintJSONError ;; ret None
  end.

(** [data.get(k)] as [connection_handler] calls it on what
    [parse_message] returned: only a dict has [get]. *)
Definition data_get (k : string) (data : json) : M json :=
  match data with
  | JObj kvs => ret (dict_get k kvs JNull)
  | _ => raise AttributeError
  end.

(** [v[:50]]: strings and lists can be sliced, nothing else that
    [json.loads] builds (a dict raises [TypeError] up to Python 3.11 and
    [KeyError] from 3.12 on; either way an exception the handler treats
    alike). *)
Definition slice50 (v : json) : M json :=
  match v with
  | JStr s => ret (JStr (Py.take 50 s))
  | JArr l => ret (JArr (firstn 50 l))
  | _ => raise TypeError
  end.

(** The body of [async for message in websocket] in
    [connection_handler]. *)
Definition handle_message (message : string) : M unit :=
  data <- parse_message message ;;
  match data with
  | Some d =>
      if truthy d then
        source <- data_get "source" d ;;
        content <- data_get "content" d ;;
        shown <- slice50 content ;;
        print (PrintReceived source shown) ;;
        match d with
        | JObj kvs => apply_rules kvs
        | _ => raise AttributeError
        end
      else ret tt
  | None => ret tt
  end.

(** [try: m  except Exception as e: h e] *)
Definition try_except {A} (m : M A) (h : exn -> M A) : M A :=
  fun w => match m w with
           | (Ok a, w') => (Ok a, w')
           | (Raise e, w') => h e w'
           end.

(** [connection_handler] for the agent [client], which sends [messages]
    and then closes the connection ([clean_close] tells whether the
    closing handshake completed; otherwise the iteration ends in
    [ConnectionClosed]).  The [try] encloses the whole loop, so an
    exception in one turn ends the loop; the handler then returns, which
    closes the connection from this side.  The value returned is not one
    of the program: it is the exception that ended the loop, if any. *)
Definition connection_handler (client : nat) (messages : list string)
    (clean_close : bool) : M (option exn) :=
  print (PrintNewAgent client) ;;
  modify (with_clients (fun s => {[client]} ∪ s)) ;;
  ended <- try_except
             (for_each messages handle_message ;;
              (if clean_close then ret tt else print (PrintClosed client)) ;;
              ret None)
             (fun e => print (PrintError e) ;; ret (Some e)) ;;
  modify (with_clients (fun s => s ∖ {[client]})) ;;
  print (PrintDisconnected client) ;;
  ret ended.

(** ** The PDF server connection *)

(** [send_to_pdf_server]; [send_ok] tells whether
    [PDF_SERVER_CONNECTION.send] returns rather than raises. *)
Definition send_to_pdf_server (send_ok : bool) (action : string)
    (params : list (string * string)) : M unit :=
  connection <- gets PDF_SERVER_CONNECTION ;;
  match connection with
  | Some _ =>
      if send_ok then
        modify (fun w =>
          with_wire (wire w ++ [ {| c_action := action; c_params := params |} ]) w) ;;
        print (PrintSent action)
      else
        print PrintSendFailed ;;
        modify (with_connection None)
  | None => ret tt
  end.

(** [connect_to_pdf_server]; [connect_ok] tells whether
    [websockets.connect] returns rather than raises. *)
Definition connect_to_pdf_server (connect_ok : bool) : M unit :=
  n <- gets connects ;;
  modify (with_connects (S n)) ;;
  if connect_ok then
    modify (with_connection (Some n)) ;;
    print PrintConnected
  else
    print PrintConnectFailed ;;
    print PrintSlideControlUnavailable ;;
    modify (with_connection None).

Definition slide_actions : list string :=
  ["OPEN_PRESENTATION"; "NEXT_SLIDE"; "PREVIOUS_SLIDE"; "GO_TO_SLIDE"].

(** [action in [...]] on a list of strings *)
Definition str_in_list (a : string) (l : list string) : bool :=
  existsb (String.eqb a) l.

(** What [_delegate_action_async] prints before it decides to send. *)
Definition announce (source action : string)
    (params : list (string * string)) (content : string) : M unit :=
  print PrintBanner ;;
  print (PrintIntent source) ;;
  print (PrintTriggerContent (Py.take 50 content)) ;;
  print (PrintDelegating action params) ;;
  print PrintBanner.

Definition _delegate_action_async (send_ok : bool) (source action : string)
    (params : list (string * string)) (content : string) : M unit :=
  announce source action params content ;;
  if str_in_list action slide_actions
  then send_to_pdf_server send_ok action params
  else ret tt.

(** The event loop runs the oldest task that has not run yet. *)
Definition run_task (send_ok : bool) : M unit :=
  n <- gets tasks_run ;;
  queue <- gets tasks ;;
  match queue !! n with
  | Some t =>
      modify (with_tasks_run (S n)) ;;
      _delegate_action_async send_ok
        (t_source t) (t_action t) (t_params t) (t_content t)
  | None => ret tt
  end.

(** ** The process *)

(** What can happen next: a connected agent delivers a message, the event
    loop runs a task, or the PDF server is dialled.  A message whose turn
    raises leaves the state as the turn left it; what [connection_handler]
    then prints is not part of the step. *)
Inductive step : world -> world -> Prop :=
| step_message message w :
    step w (exec (handle_message message) w)
| step_task send_ok w :
    step w (exec (run_task send_ok) w)
| step_connect connect_ok w :
    step w (exec (connect_to_pdf_server connect_ok) w).

(** The states the process can be in, from [w0] on. *)
Inductive reachable (w0 : world) : world -> Prop :=
| reachable_start : reachable w0 w0
| reachable_step w w' : reachable w0 w -> step w w' -> reachable w0 w'.

End Orchestrator.

(** The message [{"source": source, "content": content}], decoded. *)
Definition event (source content : string) : list (string * json) :=
  [("source", JStr source); ("content", JStr content)].

(** The wall-clock reading that [_mark_triggered] stored just before the
    task was created. *)
Definition created_at (clock : nat -> Q) (t : task) : Q :=
  clock (pred (t_tick t)).

(** The cooldown contract: the action is in the registry and the next
    reading of the clock is less than [cooldown] after its timestamp. *)
Definition on_cooldown (clock : nat -> Q) (action : string) (w : world) : bool :=
  match triggered_phrases (self w) !! action with
  | Some t => QMicromega.Qlt_bool (clock (ticks w) - t) cooldown
  | None => false
  end.

(** Every state a computation can leave, whether it returns or raises, is
    related by [R] to the state it started in. *)
Definition within {A} (R : world -> world -> Prop) (m : M A) : Prop :=
  forall w, R w (snd (m w)).

(** Nothing of the agent, of the clock or of the task queue differs. *)
Definition same_agent (w w' : world) : Prop :=
  self w' = self w /\ ticks w' = ticks w /\ tasks w' = tasks w.

(** The task queue, the cooldown registry and the rule table do not
    differ. *)
Definition same_dispatch (w w' : world) : Prop :=
  tasks w' = tasks w
  /\ triggered_phrases (self w') = triggered_phrases (self w)
  /\ rules (self w') = rules (self w).

(** The phrase window does not differ, and the clock was not turned back. *)
Definition same_window (w w' : world) : Prop :=
  phrase_buffer (self w') = phrase_buffer (self w)
  /\ phrase_timestamps (self w') = phrase_timestamps (self w)
  /\ (ticks w <= ticks w')%nat.

(** How many turns the [while] of [_clean_old_phrases] makes: the number
    of leading timestamps that are more than [phrase_window] before
    [current_time]. *)
Fixpoint stale (current_time : Q) (stamps : list Q) : nat :=
  match stamps with
  | [] => 0
  | t0 :: stamps' =>
      if QMicromega.Qlt_bool phrase_window (current_time - t0)
      then S (stale current_time stamps')
      else 0
  end.

(** The readings of the clock never decrease. *)
Definition monotone (clock : nat -> Q) : Prop :=
  forall i j, (i <= j)%nat -> (clock i <= clock j)%Q.

(** The two deques hold one timestamp per word and never exceed [maxlen]. *)
Definition lockstep (w : world) : Prop :=
  length (phrase_buffer (self w)) = length (phrase_timestamps (self w))
  /\ (length (phrase_timestamps (self w)) <= maxlen)%nat.


(** The last [n] items of a list. *)
Definition last_n {A} (n : nat) (l : list A) : list A :=
  drop (length l - n) l.

(** ** Sample inputs *)

(** A clock that advances one second per reading. *)
Definition every_second (n : nat) : Q := inject_Z (Z.of_nat n).

(** The first rule of the ["audio_stt"] table. *)
Definition open_presentation_rule : rule :=
  {| trigger := "open presentation"; action := "OPEN_PRESENTATION";
     params := [] |}.

(** The second rule of the ["audio_stt"] table, the first of ["gesture"]. *)
Definition next_rule : rule :=
  {| trigger := "next"; action := "NEXT_SLIDE"; params := [] |}.

(** One event may dispatch at most one action: what the specification
    says of [apply_rules], for the event [data] arriving in state [w]. *)
Definition at_most_one_dispatch (clock : nat -> Q)
    (data : list (string * json)) (w : world) : Prop :=
  (length (tasks (exec (apply_rules clock data) w)) <= S (length (tasks w)))%nat.

(** Since the start [w], no task for [action] was created unless the
    registry entry of [action] was left as it was: the tasks of [w'] are
    those of [w] followed by new ones, and if none of the new ones is for
    [action], the registry holds for [action] what it held in [w]. *)
Definition registry_frame (action : string) (w w' : world) : Prop :=
  exists new,
    tasks w' = tasks w ++ new
    /\ ((forall t, t ∈ new -> t_action t <> action) ->
        triggered_phrases (self w') !! action
        = triggered_phrases (self w) !! action).

(** The double quote character, and the text of the message a gesture
    agent sends for a swipe down. *)
Definition quote : string := String (ascii_of_nat 34) "".

Definition gesture_next_message : string :=
  "{" +:+ quote +:+ "source" +:+ quote +:+ ": " +:+ quote +:+ "gesture" +:+ quote
  +:+ ", " +:+ quote +:+ "content" +:+ quote +:+ ": " +:+ quote +:+ "next" +:+ quote
  +:+ "}".

(** A decoder that knows two texts: [null] and the message above. *)
Definition sample_loads (message : string) : option json :=
  if String.eqb message "null" then Some JNull
  else if String.eqb message gesture_next_message
       then Some (JObj (event "gesture" "next"))
       else None.

(** A fresh agent after the gesture message for "next" was handled once
    (checked at second 0, marked at second 1), and after it was handled a
    second time (checked at second 2). *)
Definition after_first_next : world :=
  exec (handle_message every_second sample_loads gesture_next_message) boot.
Definition after_second_next : world :=
  exec (handle_message every_second sample_loads gesture_next_message)
    after_first_next.

(** The same message a third time: the cooldown has run out by then. *)
Definition after_third_next : world :=
  exec (handle_message every_second sample_loads gesture_next_message)
    after_second_next.

(** From [w] to [w'] the phrase window became [buffer] and [stamps], the
    clock was read up to [n], nothing was printed and nothing changed that
    decides a dispatch. *)
Definition window_after (buffer : list string) (stamps : list Q) (n : nat)
    (w w' : world) : Prop :=
  phrase_buffer (self w') = buffer
  /\ phrase_timestamps (self w') = stamps
  /\ ticks w' = n
  /\ stdout w' = stdout w
  /\ same_dispatch w w'.

(** The property [I] is not lost from [w] to [w']. *)
Definition keeps (I : world -> Prop) (w w' : world) : Prop := I w -> I w'.


(** Eleven words in one message. *)
Definition eleven_words : string := "a b c d e f g h i j k".




(** ** What a run leaves alone, and what it builds *)

(** The module globals, the progress of the event loop and the traffic
    with the PDF server do not differ. *)
Definition same_globals (w w' : world) : Prop :=
  CONNECTED_CLIENTS w' = CONNECTED_CLIENTS w
  /\ PDF_SERVER_CONNECTION w' = PDF_SERVER_CONNECTION w
  /\ tasks_run w' = tasks_run w
  /\ wire w' = wire w
  /\ connects w' = connects w.

(** Nothing differs but the phrase window and the number of readings of
    the clock, which did not go down. *)
Definition window_only (w w' : world) : Prop :=
  same_dispatch w w' /\ same_globals w w'
  /\ stdout w' = stdout w /\ (ticks w <= ticks w')%nat.

(** The task [t] was created for a rule that [table] lists under the
    source of [t]: it carries the action and the parameters of the rule,
    and the lowercased trigger of the rule occurs in its content. *)
Definition from_rule (table : gmap string (list rule)) (t : task) : Prop :=
  exists r,
    r ∈ default [] (table !! t_source t)
    /\ t_action t = action r
    /\ t_params t = params r
    /\ Py.str_in (Py.lower (trigger r)) (t_content t) = true.

(** From [w] to [w'] the rule table was kept, and the task queue grew at
    its end by tasks created for rules of the table. *)
Definition dispatched (w w' : world) : Prop :=
  rules (self w') = rules (self w)
  /\ exists new,
       tasks w' = tasks w ++ new
       /\ Forall (from_rule (rules (self w))) new.

(** The creation time of the latest task for [action] in the queue [l],
    if there is one. *)
Fixpoint last_dispatch (clock : nat -> Q) (action : string) (l : list task)
  : option Q :=
  match l with
  | [] => None
  | t :: l' =>
      match last_dispatch clock action l' with
      | Some T => Some T
      | None => if String.eqb (t_action t) action
                then Some (created_at clock t) else None
      end
  end.

(** The registry holds, for every action, the creation time of the latest
    task for it, and nothing for an action that has no task. *)
Definition registry_exact (clock : nat -> Q) (w : world) : Prop :=
  forall a, triggered_phrases (self w) !! a = last_dispatch clock a (tasks w).

(** The message [send_to_pdf_server] builds when the task runs. *)
Definition command_of (t : task) : command :=
  {| c_action := t_action t; c_params := t_params t |}.

(** The commands of the tasks that have run and whose action
    [_delegate_action_async] hands to [send_to_pdf_server], oldest first. *)
Definition due (w : world) : list command :=
  map command_of
    (List.filter (fun t => str_in_list (t_action t) slide_actions)
       (take (tasks_run w) (tasks w))).

(** The event loop is not ahead of the queue, and what was sent is part of
    what was due, in the same order. *)
Definition wire_ok (w : world) : Prop :=
  (tasks_run w <= length (tasks w))%nat /\ wire w `sublist_of` due w.

(** The process while [main] serves: [main] calls [connect_to_pdf_server]
    once, before it starts the server, and nothing else calls it; from then
    on messages are handled and tasks run. *)
Inductive serving (clock : nat -> Q) (json_loads : string -> option json)
  : world -> world -> Prop :=
| serving_start w : serving clock json_loads w w
| serving_message message w w' :
    serving clock json_loads w w' ->
    serving clock json_loads w (exec (handle_message clock json_loads message) w')
| serving_task send_ok w w' :
    serving clock json_loads w w' ->
    serving clock json_loads w (exec (run_task send_ok) w').

(** The process while [main] serves and no send fails. *)
Inductive delivering (clock : nat -> Q) (json_loads : string -> option json)
  : world -> world -> Prop :=
| delivering_start w : delivering clock json_loads w w
| delivering_message message w w' :
    delivering clock json_loads w w' ->
    delivering clock json_loads w
      (exec (handle_message clock json_loads message) w')
| delivering_task w w' :
    delivering clock json_loads w w' ->
    delivering clock json_loads w (exec (run_task true) w').


(** ** Messages by what [parse_message] makes of them *)

(** [parse_message] returns [None] for the message: it is not JSON, or the
    value it decodes to supports [in] and lacks ["source"] or ["content"]. *)
Definition rejected (json_loads : string -> option json) (message : string)
  : bool :=
  match json_loads message with
  | None => true
  | Some data =>
      match py_in "source" data with
      | Some false => true
      | Some true =>
          match py_in "content" data with
          | Some false => true
          | _ => false
          end
      | None => false
      end
  end.

(** What [parse_message] prints for a message it rejects. *)
Definition rejection (json_loads : string -> option json) (message : string)
  : line :=
  match json_loads message with
  | None => PrintJSONError
  | Some _ => PrintInvalidFormat message
  end.

(** The message decodes to an object whose ["source"] and ["content"] are
    both strings. *)
Definition well_formed (json_loads : string -> option json) (message : string)
  : bool :=
  match json_loads message with
  | Some (JObj kvs) =>
      match py_in "source" (JObj kvs), py_in "content" (JObj kvs) with
      | Some true, Some true =>
          match dict_get "source" kvs JNull, dict_get "content" kvs JNull with
          | JStr _, JStr _ => true
          | _, _ => false
          end
      | _, _ => false
      end
  | _ => false
  end.

(** Started in a state where [I] holds, the computation returns (it does
    not raise) and [I] holds again. *)
Definition returns {A} (I : world -> Prop) (m : M A) : Prop :=
  forall w, I w -> exists a w', m w = (Ok a, w') /\ I w'.

(** A clock that reads 0 four times and 5/2 from then on: an event handled
    at once, and the next one two and a half seconds later. *)
Definition pause_clock (n : nat) : Q :=
  if (n <? 4)%nat then 0 else 5 # 2.

(** ** Words *)

(** No character of the string is white space. *)
Fixpoint spaceless (s : string) : bool :=
  match s with
  | EmptyString => true
  | String c s' => negb (Py.isspace c) && spaceless s'
  end.

(** [str.lower] maps every character of the string to itself. *)
Fixpoint lowered (s : string) : bool :=
  match s with
  | EmptyString => true
  | String c s' => Ascii.eqb (Py.lower_char c) c && lowered s'
  end.

(** A word as [content.lower().split()] yields them: not empty, without
    white space, in lower case. *)
Definition is_word (s : string) : bool :=
  negb (Py.is_empty s) && spaceless s && lowered s.

(** The phrase buffer holds such words only. *)
Definition words_ok (w : world) : Prop :=
  Forall (fun x => is_word x = true) (phrase_buffer (self w)).

(** ** More sample inputs *)

(** The text of a gesture message whose content is an empty list, and a
    decoder that knows this text only. *)
Definition gesture_list_message : string :=
  "{" +:+ quote +:+ "source" +:+ quote +:+ ": " +:+ quote +:+ "gesture" +:+ quote
  +:+ ", " +:+ quote +:+ "content" +:+ quote +:+ ": []}".

Definition list_loads (message : string) : option json :=
  if String.eqb message gesture_list_message
  then Some (JObj [("source", JStr "gesture"); ("content", JArr [])])
  else None.

(** The process after the connect attempt of [main] succeeded. *)
Definition connected : world := exec (connect_to_pdf_server true) boot.

(** ** Runs that differ in what they print *)

(** The two states differ at most in what was printed. *)
Definition same_but_stdout (w1 w2 : world) : Prop :=
  self w1 = self w2
  /\ CONNECTED_CLIENTS w1 = CONNECTED_CLIENTS w2
  /\ PDF_SERVER_CONNECTION w1 = PDF_SERVER_CONNECTION w2
  /\ ticks w1 = ticks w2
  /\ tasks w1 = tasks w2
  /\ tasks_run w1 = tasks_run w2
  /\ wire w1 = wire w2
  /\ connects w1 = connects w2.

(** Started in states that differ at most in what was printed, the two
    computations end alike: both return the same value or both raise the
    same exception, in states that differ at most in what was printed. *)
Definition alike {A} (m1 m2 : M A) : Prop :=
  forall w1 w2, same_but_stdout w1 w2 ->
    fst (m1 w1) = fst (m2 w2) /\ same_but_stdout (snd (m1 w1)) (snd (m2 w2)).

(** * Properties *)

(** ** Strings *)

Lemma append_String (c : ascii) (s b : string) :
  String c s +:+ b = String c (s +:+ b).
Proof. reflexivity. Qed.

Lemma prefix_append (t s : string) :
  String.prefix t s = true <-> exists b, s = t +:+ b.
Proof.
  revert s. induction t as [|c t IH]; intros s; simpl.
  - split; [intros _; exists s; reflexivity | intros _; destruct s; reflexivity].
  - destruct s as [|d s]; simpl.
    + split; [discriminate | intros [b Hb]; discriminate].
    + destruct (Ascii.ascii_dec c d) as [->|Hne].
      * rewrite IH. split; intros [b Hb]; exists b;
          rewrite append_String in *; congruence.
      * split; [discriminate | intros [b Hb]].
        rewrite append_String in Hb. congruence.
Qed.

(** [Py.str_in t s] holds exactly when [t] is a contiguous run of [s]. *)
Lemma str_in_spec (t s : string) :
  Py.str_in t s = true <-> exists a b, s = a +:+ t +:+ b.
Proof.
  induction s as [|c s IH].
  - change (Py.str_in t "") with (String.prefix t "" || false).
    rewrite orb_false_r, prefix_append. split.
    + intros [b Hb]. exists "", b. exact Hb.
    + intros [a [b Hb]]. destruct a; [exists b; exact Hb | discriminate].
  - change (Py.str_in t (String c s))
      with (String.prefix t (String c s) || Py.str_in t s).
    rewrite orb_true_iff, prefix_append, IH. split.
    + intros [[b Hb] | [a [b Hb]]].
      * exists "", b. exact Hb.
      * exists (String c a), b. rewrite append_String. congruence.
    + intros [a [b Hb]]. destruct a as [|d a].
      * left. exists b. exact Hb.
      * right. exists a, b. rewrite append_String in Hb. congruence.
Qed.

(** ** Reasoning about computations *)

Section Within.
Context (R : world -> world -> Prop) `{!PreOrder R}.

Lemma within_ret {A} (a : A) : within R (ret a).
Proof. intros w. reflexivity. Qed.

Lemma within_raise {A} (e : exn) : within R (raise (A:=A) e).
Proof. intros w. reflexivity. Qed.

Lemma within_gets {A} (f : world -> A) : within R (gets f).
Proof. intros w. reflexivity. Qed.

Lemma within_modify (f : world -> world) :
  (forall w, R w (f w)) -> within R (modify f).
Proof. intros H w. apply H. Qed.

Lemma within_bind {A B} (m : M A) (k : A -> M B) :
  within R m -> (forall a, within R (k a)) -> within R (bind m k).
Proof.
  intros Hm Hk w. unfold bind. specialize (Hm w).
  destruct (m w) as [[a|e] w']; simpl in *; [|exact Hm].
  etransitivity; [exact Hm | apply Hk].
Qed.

Lemma within_for_each {A} (l : list A) (body : A -> M unit) :
  (forall x, within R (body x)) -> within R (for_each l body).
Proof.
  intros H. induction l as [|x l IH]; simpl.
  - apply within_ret.
  - apply within_bind; [apply H | intros _; exact IH].
Qed.

Lemma within_try_except {A} (m : M A) (h : exn -> M A) :
  within R m -> (forall e, within R (h e)) -> within R (try_except m h).
Proof.
  intros Hm Hh w. unfold try_except. specialize (Hm w).
  destruct (m w) as [[a|e] w']; simpl in *; [exact Hm|].
  etransitivity; [exact Hm | apply Hh].
Qed.

End Within.

Lemma within_weaken {A} (R1 R2 : world -> world -> Prop) (m : M A) :
  (forall w w', R1 w w' -> R2 w w') -> within R1 m -> within R2 m.
Proof. intros H Hm w. apply H, Hm. Qed.

#[local] Instance same_agent_preorder : PreOrder same_agent.
Proof.
  split.
  - intros w. repeat split.
  - intros w1 w2 w3 (H1 & H2 & H3) (H4 & H5 & H6).
    repeat split; congruence.
Qed.

#[local] Instance same_dispatch_preorder : PreOrder same_dispatch.
Proof.
  split.
  - intros w. repeat split.
  - intros w1 w2 w3 (H1 & H2 & H3) (H4 & H5 & H6).
    repeat split; congruence.
Qed.

(** ** How the methods run *)

Section Code.
Variable clock : nat -> Q.
Variable json_loads : string -> option json.

Lemma print_same_agent (l : line) : within same_agent (print l).
Proof. intros w. repeat split. Qed.

Lemma send_same_agent ok a ps : within same_agent (send_to_pdf_server ok a ps).
Proof.
  intros w. unfold send_to_pdf_server, bind, gets. simpl.
  destruct (PDF_SERVER_CONNECTION w); [destruct ok|]; repeat split.
Qed.

Lemma connect_same_agent ok : within same_agent (connect_to_pdf_server ok).
Proof. intros w. destruct ok; repeat split. Qed.

Lemma delegate_same_agent ok s a ps c :
  within same_agent (_delegate_action_async ok s a ps c).
Proof.
  unfold _delegate_action_async.
  apply within_bind; [typeclasses eauto | | intros _].
  - unfold announce.
    repeat (apply within_bind;
            [typeclasses eauto | apply print_same_agent | intros _]).
    apply print_same_agent.
  - destruct (str_in_list _ _);
      [apply send_same_agent | apply within_ret; typeclasses eauto].
Qed.

Lemma run_task_same_agent ok : within same_agent (run_task ok).
Proof.
  intros w. unfold run_task, bind, gets. simpl.
  destruct (tasks w !! tasks_run w) as [t|]; simpl; [|repeat split].
  pose proof (delegate_same_agent ok (t_source t) (t_action t) (t_params t)
                (t_content t) (with_tasks_run (S (tasks_run w)) w)) as H.
  destruct (_delegate_action_async _ _ _ _ _ _) as [[]?]; exact H.
Qed.

Lemma append_word_same_dispatch word :
  within same_dispatch (append_word clock word).
Proof. intros w. repeat split. Qed.

Lemma clean_loop_same_dispatch now stamps :
  within same_dispatch (clean_loop now stamps).
Proof.
  induction stamps as [|t0 stamps IH]; simpl.
  - apply within_ret; typeclasses eauto.
  - destruct (QMicromega.Qlt_bool _ _); [|apply within_ret; typeclasses eauto].
    apply within_bind; [typeclasses eauto| |intros _].
    { intros w. unfold popleft_timestamps, bind, gets. simpl.
      destruct (phrase_timestamps (self w)); repeat split. }
    apply within_bind; [typeclasses eauto| |intros _; exact IH].
    intros w. unfold popleft_buffer, bind, gets. simpl.
    destruct (phrase_buffer (self w)); repeat split.
Qed.

Lemma clean_same_dispatch : within same_dispatch (_clean_old_phrases clock).
Proof.
  intros w. unfold _clean_old_phrases, bind, time_time, gets. simpl.
  pose proof (clean_loop_same_dispatch (clock (ticks w))
                (phrase_timestamps (self w)) (with_ticks (S (ticks w)) w)) as H.
  destruct (clean_loop _ _ _) as [[]?]; exact H.
Qed.

Lemma was_recently_triggered_run a w :
  _was_recently_triggered clock a w
  = (Ok (on_cooldown clock a w), with_ticks (S (ticks w)) w).
Proof.
  unfold _was_recently_triggered, on_cooldown, bind, time_time, gets, ret.
  simpl. destruct (triggered_phrases (self w) !! a) as [t|]; [|reflexivity].
  destruct (QMicromega.Qlt_bool _ _); reflexivity.
Qed.

Lemma check_rule_miss src p r w :
  Py.str_in (Py.lower (trigger r)) p = false ->
  check_rule clock src p r w = (Ok tt, w).
Proof. intros H. unfold check_rule. rewrite H. reflexivity. Qed.

Lemma check_rule_cooldown src p r w :
  Py.str_in (Py.lower (trigger r)) p = true ->
  on_cooldown clock (action r) w = true ->
  check_rule clock src p r w
  = (Ok tt, with_stdout (stdout w ++ [PrintCooldown (Py.lower (trigger r))])
              (with_ticks (S (ticks w)) w)).
Proof.
  intros H1 H2. unfold check_rule. rewrite H1.
  unfold bind. rewrite was_recently_triggered_run, H2. reflexivity.
Qed.

Lemma check_rule_ok src p r w : fst (check_rule clock src p r w) = Ok tt.
Proof.
  unfold check_rule. destruct (Py.str_in _ _); [|reflexivity].
  unfold bind. rewrite was_recently_triggered_run.
  destruct (on_cooldown _ _ _); reflexivity.
Qed.

Lemma check_rule_fire_tasks src p r w :
  Py.str_in (Py.lower (trigger r)) p = true ->
  on_cooldown clock (action r) w = false ->
  tasks (exec (check_rule clock src p r) w)
  = tasks w ++ [ {| t_source := src; t_action := action r; t_params := params r;
                    t_content := p; t_tick := S (S (ticks w)) |} ].
Proof.
  intros H1 H2. unfold exec, check_rule. rewrite H1.
  unfold bind. rewrite was_recently_triggered_run, H2. reflexivity.
Qed.

Section Generic.
Context (R : world -> world -> Prop) `{!PreOrder R}.
Hypothesis Hagent : forall w w', same_agent w w' -> R w w'.
Hypothesis Happend : forall word, within R (append_word clock word).
Hypothesis Hclean : within R (_clean_old_phrases clock).
Hypothesis Hcheck : forall src p r, within R (check_rule clock src p r).

Lemma within_print l : within R (print l).
Proof. apply (within_weaken same_agent); [exact Hagent | apply print_same_agent]. Qed.

Lemma within_apply_rules data : within R (apply_rules clock data).
Proof.
  unfold apply_rules.
  destruct (dict_get "content" data (JStr "")); try (apply within_raise; assumption).
  apply within_bind; [assumption | apply within_print | intros _].
  destruct (_ || _); [apply within_ret; assumption|].
  apply within_bind; [assumption | | intros p].
  - destruct (is_str _ _); [|apply within_ret; assumption].
    apply within_bind; [assumption | | intros _].
    { apply within_for_each; assumption. }
    apply within_bind; [assumption | | intros p].
    { unfold _get_recent_phrase.
      apply within_bind; [assumption | exact Hclean | intros _].
      apply within_bind; [assumption | apply within_gets; assumption | intros b].
      apply within_ret; assumption. }
    apply within_bind; [assumption | apply within_print | intros _].
    apply within_ret; assumption.
  - destruct (dict_get "source" data JNull);
      try (apply within_ret; assumption); try (apply within_raise; assumption).
    apply within_bind; [assumption | apply within_gets; assumption | intros rs].
    apply within_for_each; [assumption | apply Hcheck].
Qed.

Lemma within_parse_message msg : within R (parse_message json_loads msg).
Proof.
  unfold parse_message.
  destruct (json_loads msg) as [data|].
  - destruct (py_in "source" data) as [[]|]; [| |apply within_raise; assumption].
    + destruct (py_in "content" data) as [[]|];
        [apply within_ret; assumption | | apply within_raise; assumption].
      apply within_bind; [assumption | apply within_print | intros _].
      apply within_ret; assumption.
    + apply within_bind; [assumption | apply within_print | intros _].
      apply within_ret; assumption.
  - apply within_bind; [assumption | apply within_print | intros _].
    apply within_ret; assumption.
Qed.

Lemma within_handle_message msg :
  within R (handle_message clock json_loads msg).
Proof.
  unfold handle_message.
  apply within_bind; [assumption | apply within_parse_message | intros [d|]];
    [|apply within_ret; assumption].
  destruct (truthy d); [|apply within_ret; assumption].
  apply within_bind; [assumption | | intros src].
  { destruct d; try (apply within_raise; assumption). apply within_ret; assumption. }
  apply within_bind; [assumption | | intros c].
  { destruct d; try (apply within_raise; assumption). apply within_ret; assumption. }
  apply within_bind; [assumption | | intros shown].
  { destruct c; try (apply within_raise; assumption); apply within_ret; assumption. }
  apply within_bind; [assumption | apply within_print | intros _].
  destruct d; try (apply within_raise; assumption).
  apply within_apply_rules.
Qed.

Lemma within_step w w' : step clock json_loads w w' -> R w w'.
Proof.
  intros [msg w0 | ok w0 | ok w0].
  - apply within_handle_message.
  - apply Hagent, run_task_same_agent.
  - apply Hagent, connect_same_agent.
Qed.

Lemma within_reachable w0 w : reachable clock json_loads w0 w -> R w0 w.
Proof.
  induction 1 as [|w w' _ IH Hstep]; [reflexivity|].
  etransitivity; [exact IH | apply within_step, Hstep].
Qed.

End Generic.

End Code.

(** ** The rule loop *)

Lemma check_rule_cooldown_state clock src p r w :
  Py.str_in (Py.lower (trigger r)) p = true ->
  on_cooldown clock (action r) w = true ->
  same_dispatch w (exec (check_rule clock src p r) w).
Proof.
  intros H1 H2. unfold exec. rewrite check_rule_cooldown by assumption.
  repeat split.
Qed.

Lemma check_rule_fire_registry clock src p r w :
  Py.str_in (Py.lower (trigger r)) p = true ->
  on_cooldown clock (action r) w = false ->
  triggered_phrases (self (exec (check_rule clock src p r) w))
  = <[action r := clock (S (ticks w))]> (triggered_phrases (self w)).
Proof.
  intros H1 H2. unfold exec, check_rule. rewrite H1.
  unfold bind. rewrite was_recently_triggered_run, H2. reflexivity.
Qed.

Lemma check_rules_cons clock src p r rs w :
  check_rules clock src p (r :: rs) w
  = check_rules clock src p rs (exec (check_rule clock src p r) w).
Proof.
  unfold check_rules, exec. simpl. unfold bind.
  pose proof (check_rule_ok clock src p r w) as H.
  destruct (check_rule clock src p r w) as [[[]|e] w']; simpl in *;
    [reflexivity | discriminate].
Qed.

Lemma check_rules_app clock src p rs1 rs2 w :
  check_rules clock src p (rs1 ++ rs2) w
  = check_rules clock src p rs2 (exec (check_rules clock src p rs1) w).
Proof.
  revert w. induction rs1 as [|r rs1 IH]; intros w; [reflexivity|].
  simpl. rewrite !check_rules_cons. unfold exec at 2.
  rewrite check_rules_cons. apply IH.
Qed.



(** ** Running a task *)

Lemma str_in_list_In a l : str_in_list a l = true <-> In a l.
Proof.
  unfold str_in_list. rewrite existsb_exists. split.
  - intros [x [Hx E]]. apply String.eqb_eq in E. subst. exact Hx.
  - intros H. exists a. split; [exact H | apply String.eqb_refl].
Qed.

Lemma announce_run s a ps c w :
  announce s a ps c w
  = (Ok tt, with_stdout (stdout w ++ [PrintBanner; PrintIntent s;
                                       PrintTriggerContent (Py.take 50 c);
                                       PrintDelegating a ps; PrintBanner]) w).
Proof.
  unfold announce, print, bind, modify. simpl.
  rewrite <- !app_assoc. reflexivity.
Qed.

(** ** The registry changes only with a dispatch *)

#[local] Instance registry_frame_preorder a : PreOrder (registry_frame a).
Proof.
  split.
  - intros w. exists []. split; [symmetry; apply app_nil_r | reflexivity].
  - intros w1 w2 w3 (n1 & Ht1 & Hr1) (n2 & Ht2 & Hr2).
    exists (n1 ++ n2). split.
    + rewrite Ht2, Ht1, app_assoc. reflexivity.
    + intros H. rewrite Hr2, Hr1; [reflexivity | |];
        intros t Ht; apply H, elem_of_app; [left | right]; exact Ht.
Qed.

Lemma same_dispatch_registry_frame a w w' :
  same_dispatch w w' -> registry_frame a w w'.
Proof.
  intros (Ht & Hr & _). exists []. rewrite app_nil_r, Hr.
  split; [exact Ht | reflexivity].
Qed.

Lemma same_agent_registry_frame a w w' :
  same_agent w w' -> registry_frame a w w'.
Proof.
  intros (Hs & _ & Ht). apply same_dispatch_registry_frame.
  split; [exact Ht | rewrite Hs; split; reflexivity].
Qed.

Lemma check_rule_registry_frame clock a src p r :
  within (registry_frame a) (check_rule clock src p r).
Proof.
  intros w. destruct (Py.str_in (Py.lower (trigger r)) p) eqn:Hin.
  - destruct (on_cooldown clock (action r) w) eqn:Hcd.
    + apply same_dispatch_registry_frame.
      apply (check_rule_cooldown_state clock src p r w Hin Hcd).
    + eexists. split; [apply (check_rule_fire_tasks clock src p r w Hin Hcd)|].
      intros H. fold (exec (check_rule clock src p r) w).
      rewrite check_rule_fire_registry by assumption.
      apply lookup_insert_ne. intros E.
      apply (H _ (list_elem_of_here _ _)). exact E.
  - rewrite check_rule_miss by assumption. reflexivity.
Qed.

Lemma reachable_registry_frame clock json_loads a w w' :
  reachable clock json_loads w w' -> registry_frame a w w'.
Proof.
  apply within_reachable.
  - typeclasses eauto.
  - apply same_agent_registry_frame.
  - intros word. apply (within_weaken same_dispatch);
      [apply same_dispatch_registry_frame | apply append_word_same_dispatch].
  - apply (within_weaken same_dispatch);
      [apply same_dispatch_registry_frame | apply clean_same_dispatch].
  - intros src p r. apply check_rule_registry_frame.
Qed.

(** ** Messages that [parse_message] rejects *)

Lemma malformed_json_is_ignored clock json_loads message w :
  json_loads message = None ->
  handle_message clock json_loads message w
  = (Ok tt, with_stdout (stdout w ++ [PrintJSONError]) w).
Proof.
  intros H. unfold handle_message, parse_message, bind. rewrite H. reflexivity.
Qed.

Lemma incomplete_object_is_ignored clock json_loads message kvs w :
  json_loads message = Some (JObj kvs) ->
  py_in "source" (JObj kvs) = Some false
  \/ py_in "content" (JObj kvs) = Some false ->
  handle_message clock json_loads message w
  = (Ok tt, with_stdout (stdout w ++ [PrintInvalidFormat message]) w).
Proof.
  intros H Hmiss. unfold handle_message, parse_message, bind. rewrite H.
  destruct (py_in "source" (JObj kvs)) as [[]|] eqn:Hs;
    destruct (py_in "content" (JObj kvs)) as [[]|] eqn:Hc;
    try reflexivity; destruct Hmiss; discriminate.
Qed.

(** ** The deques *)

Lemma last_n_all {A} (n : nat) (l : list A) :
  (length l <= n)%nat -> last_n n l = l.
Proof.
  intros H. unfold last_n. replace (length l - n)%nat with 0%nat by lia.
  reflexivity.
Qed.

Lemma length_last_n {A} (n : nat) (l : list A) :
  length (last_n n l) = Nat.min n (length l).
Proof. unfold last_n. rewrite length_drop. lia. Qed.

Lemma last_n_app_last_n {A} (n : nat) (l l2 : list A) :
  last_n n (last_n n l ++ l2) = last_n n (l ++ l2).
Proof.
  unfold last_n. rewrite !length_app, length_drop.
  rewrite !drop_app, drop_drop, length_drop.
  f_equal; f_equal; lia.
Qed.

Lemma deque_append_last_n {A} (x : A) (d : list A) :
  (length d <= maxlen)%nat -> deque_append x d = last_n maxlen (d ++ [x]).
Proof.
  intros H. unfold deque_append, last_n. rewrite length_app.
  change (length [x]) with 1%nat.
  destruct (Nat.leb_spec maxlen (length d)) as [E|E].
  - replace (length d + 1 - maxlen)%nat with 1%nat by lia.
    destruct d as [|y d]; [unfold maxlen in E; simpl in E; lia|]. reflexivity.
  - replace (length d + 1 - maxlen)%nat with 0%nat by lia.
    reflexivity.
Qed.

(** ** The phrase window *)

Section Window.
Variable clock : nat -> Q.

Lemma append_word_run word w :
  exists w',
    append_word clock word w = (Ok tt, w')
    /\ window_after (deque_append word (phrase_buffer (self w)))
         (deque_append (clock (ticks w)) (phrase_timestamps (self w)))
         (S (ticks w)) w w'.
Proof. eexists. split; [reflexivity | repeat split]. Qed.

Lemma deque_append_length {A} (x : A) (d : list A) :
  (length d <= maxlen)%nat ->
  length (deque_append x d) = Nat.min maxlen (S (length d)).
Proof.
  intros H. rewrite deque_append_last_n by exact H.
  rewrite length_last_n, length_app. change (length [x]) with 1%nat. lia.
Qed.

Lemma append_words_run words w :
  lockstep w ->
  exists w',
    for_each words (append_word clock) w = (Ok tt, w')
    /\ window_after
         (last_n maxlen (phrase_buffer (self w) ++ words))
         (last_n maxlen (phrase_timestamps (self w)
                         ++ map clock (seq (ticks w) (length words))))
         (ticks w + length words) w w'
    /\ lockstep w'.
Proof.
  revert w. induction words as [|word words IH]; intros w [Hlen Hmax].
  - exists w. split; [reflexivity|]. split; [|split; assumption].
    simpl. rewrite !app_nil_r, !last_n_all, Nat.add_0_r by lia.
    repeat split.
  - destruct (append_word_run word w) as (w1 & E1 & Hb & Hs & Ht & Ho & Hd).
    assert (Hlock1 : lockstep w1).
    { unfold lockstep. rewrite Hb, Hs, !deque_append_length by lia. lia. }
    destruct (IH w1 Hlock1)
      as (w2 & E2 & (Hb2 & Hs2 & Ht2 & Ho2 & Hd2) & Hlock2).
    exists w2. split.
    { simpl. unfold bind. rewrite E1. exact E2. }
    split; [|exact Hlock2].
    split; [|split; [|split; [|split]]].
    + rewrite Hb2, Hb, deque_append_last_n, last_n_app_last_n by lia.
      rewrite <- app_assoc. reflexivity.
    + rewrite Hs2, Hs, Ht, deque_append_last_n, last_n_app_last_n by lia.
      rewrite <- app_assoc. reflexivity.
    + rewrite Ht2, Ht. simpl. lia.
    + congruence.
    + etransitivity; eassumption.
Qed.

Lemma popleft_both_run w t0 stamps b buffer :
  phrase_timestamps (self w) = t0 :: stamps ->
  phrase_buffer (self w) = b :: buffer ->
  exists w1,
    bind popleft_timestamps (fun _ => popleft_buffer) w = (Ok tt, w1)
    /\ window_after buffer stamps (ticks w) w w1.
Proof.
  intros Hs Hb. unfold popleft_timestamps, popleft_buffer.
  unfold bind, gets. simpl. rewrite Hs. simpl. rewrite Hb.
  eexists. split; [reflexivity | repeat split].
Qed.

Lemma clean_loop_run stamps w :
  phrase_timestamps (self w) = stamps ->
  length (phrase_buffer (self w)) = length stamps ->
  forall now,
  exists w',
    clean_loop now stamps w = (Ok tt, w')
    /\ window_after (drop (stale now stamps) (phrase_buffer (self w)))
         (drop (stale now stamps) stamps) (ticks w) w w'.
Proof.
  revert w. induction stamps as [|t0 stamps IH]; intros w Hs Hlen now.
  - exists w. split; [reflexivity|]. simpl. rewrite drop_0. repeat split.
    exact Hs.
  - simpl. destruct (QMicromega.Qlt_bool phrase_window (now - t0)).
    + destruct (phrase_buffer (self w)) as [|b buffer] eqn:Hb;
        [discriminate|].
      destruct (popleft_both_run w t0 stamps b buffer Hs Hb)
        as (w1 & E1 & H1).
      destruct H1 as (Hb1 & Hs1 & Ht1 & Ho1 & Hd1).
      destruct (IH w1 Hs1) with (now := now)
        as (w2 & E2 & Hb2 & Hs2 & Ht2 & Ho2 & Hd2).
      { rewrite Hb1. simpl in Hlen. lia. }
      exists w2. split.
      * unfold bind in *.
        destruct (popleft_timestamps w) as [[[]|e] wa]; [|discriminate].
        rewrite E1. exact E2.
      * simpl. rewrite <- Hb1.
        destruct Hd1 as (A1 & A2 & A3), Hd2 as (B1 & B2 & B3).
        repeat split; try assumption; congruence.
    + exists w. split; [reflexivity|]. simpl. rewrite drop_0. repeat split.
      exact Hs.
Qed.
Lemma get_recent_phrase_run w :
  lockstep w ->
  let k := stale (clock (ticks w)) (phrase_timestamps (self w)) in
  exists w',
    _get_recent_phrase clock w
    = (Ok (Py.lower (Py.join " " (drop k (phrase_buffer (self w))))), w')
    /\ window_after (drop k (phrase_buffer (self w)))
         (drop k (phrase_timestamps (self w))) (S (ticks w)) w w'.
Proof.
  intros [Hlen _] k.
  destruct (clean_loop_run (phrase_timestamps (self w))
              (with_ticks (S (ticks w)) w) eq_refl Hlen (clock (ticks w)))
    as (w' & E & Hb & Hs & Ht & Ho & Hd).
  exists w'. split.
  - unfold _get_recent_phrase, _clean_old_phrases, bind, time_time, gets.
    simpl. rewrite E. simpl. rewrite Hb. reflexivity.
  - repeat split; try assumption; apply Hd.
Qed.

Lemma check_rule_same_window src p r :
  within same_window (check_rule clock src p r).
Proof.
  intros w. destruct (Py.str_in (Py.lower (trigger r)) p) eqn:Hin.
  - unfold check_rule. rewrite Hin. unfold bind.
    rewrite was_recently_triggered_run.
    destruct (on_cooldown clock (action r) w); repeat split; simpl; lia.
  - rewrite check_rule_miss by assumption. repeat split. simpl. lia.
Qed.

End Window.

#[local] Instance same_window_preorder : PreOrder same_window.
Proof.
  split.
  - intros w. repeat split. lia.
  - intros w1 w2 w3 (H1 & H2 & H3) (H4 & H5 & H6).
    repeat split; [congruence | congruence | lia].
Qed.

Lemma check_rules_same_window clock src p rs :
  within same_window (check_rules clock src p rs).
Proof.
  apply within_for_each; [typeclasses eauto|].
  intros r. apply check_rule_same_window.
Qed.

Lemma check_rules_ok clock src p rs w :
  fst (check_rules clock src p rs w) = Ok tt.
Proof.
  revert w. induction rs as [|r rs IH]; intros w; [reflexivity|].
  rewrite check_rules_cons. apply IH.
Qed.

Lemma bind_ok {A B} (m : M A) (k : A -> M B) w a w' :
  m w = (Ok a, w') -> bind m k w = k a w'.
Proof. intros H. unfold bind. rewrite H. reflexivity. Qed.

Lemma is_empty_false s : s <> "" -> Py.is_empty s = false.
Proof. destruct s; [contradiction | reflexivity]. Qed.

(** An audio event: the words are appended, the phrase is read, and the
    rules of ["audio_stt"] are checked against it. *)
Lemma apply_rules_audio clock content w :
  lockstep w ->
  Py.strip content <> "" ->
  let words := Py.split (Py.lower (Py.strip content)) in
  let buffer := last_n maxlen (phrase_buffer (self w) ++ words) in
  let stamps := last_n maxlen (phrase_timestamps (self w)
                               ++ map clock (seq (ticks w) (length words))) in
  let k := stale (clock (ticks w + length words)) stamps in
  let phrase := Py.lower (Py.join " " (drop k buffer)) in
  exists w',
    apply_rules clock (event "audio_stt" content) w
    = check_rules clock "audio_stt" phrase
        (default [] (rules (self w) !! "audio_stt")) w'
    /\ phrase_buffer (self w') = drop k buffer
    /\ phrase_timestamps (self w') = drop k stamps
    /\ ticks w' = S (ticks w + length words)
    /\ same_dispatch w w'
    /\ lockstep w'
    /\ stdout w' = stdout w ++ [PrintEvent (JStr "audio_stt") (Py.strip content);
                                PrintPhraseBuffer phrase].
Proof.
  intros Hlock Hne words buffer stamps k phrase.
  set (w0 := with_stdout
               (stdout w ++ [PrintEvent (JStr "audio_stt") (Py.strip content)]) w).
  assert (Hlock0 : lockstep w0) by exact Hlock.
  destruct (append_words_run clock words w0 Hlock0)
    as (w1 & E1 & (Hb1 & Hs1 & Ht1 & Ho1 & Hd1) & Hlock1).
  destruct (get_recent_phrase_run clock w1 Hlock1)
    as (w2 & E2 & Hb2 & Hs2 & Ht2 & Ho2 & Hd2).
  simpl in Hb1, Hs1, Ht1, Ho1.
  rewrite ?Hb1, ?Hs1, ?Ht1 in E2. rewrite ?Hb1, ?Hs1, ?Ht1 in Hb2.
  rewrite ?Hb1, ?Hs1, ?Ht1 in Hs2. rewrite Ht1 in Ht2.
  fold words buffer stamps in E2, Hb2, Hs2. fold k in E2, Hb2, Hs2.
  fold phrase in E2.
  exists (with_stdout (stdout w2 ++ [PrintPhraseBuffer phrase]) w2).
  split; [|split; [|split; [|split; [|split; [|split]]]]];
    [|exact Hb2|exact Hs2|exact Ht2| | |].
  - unfold apply_rules, event. simpl.
    rewrite (is_empty_false _ Hne). simpl.
    rewrite (bind_ok (print _) _ w tt w0 eq_refl).
    fold words.
    erewrite (bind_ok (bind (for_each words (append_word clock)) _) _ w0 phrase).
    2:{ rewrite (bind_ok _ _ w0 tt w1 E1), (bind_ok _ _ w1 phrase w2 E2).
        rewrite (bind_ok (print _) _ w2 tt _ eq_refl). reflexivity. }
    unfold bind, gets. simpl.
    destruct Hd2 as (_ & _ & Hr2). destruct Hd1 as (_ & _ & Hr1).
    rewrite Hr2, Hr1. reflexivity.
  - destruct Hd1 as (A1 & A2 & A3), Hd2 as (B1 & B2 & B3).
    simpl in A1, A2, A3.
    repeat split; simpl; congruence.
  - unfold lockstep. simpl. rewrite Hb2, Hs2, !length_drop.
    unfold buffer, stamps. rewrite !length_last_n, !length_app, length_map,
      length_seq.
    destruct Hlock as [Hl Hm]. lia.
  - simpl. rewrite Ho2, Ho1, <- app_assoc. reflexivity.
Qed.

(** ** The window stays well formed *)

#[local] Instance keeps_preorder (I : world -> Prop) : PreOrder (keeps I).
Proof. split; [intros w H; exact H | intros w1 w2 w3 H1 H2 H; auto]. Qed.

Lemma clean_run clock w :
  lockstep w ->
  let k := stale (clock (ticks w)) (phrase_timestamps (self w)) in
  exists w',
    _clean_old_phrases clock w = (Ok tt, w')
    /\ window_after (drop k (phrase_buffer (self w)))
         (drop k (phrase_timestamps (self w))) (S (ticks w)) w w'.
Proof.
  intros [Hlen _] k.
  destruct (clean_loop_run (phrase_timestamps (self w))
              (with_ticks (S (ticks w)) w) eq_refl Hlen (clock (ticks w)))
    as (w' & E & H).
  exists w'. split; [|exact H].
  unfold _clean_old_phrases, bind, time_time, gets. simpl. exact E.
Qed.

Lemma lockstep_drop k w w' n :
  lockstep w ->
  window_after (drop k (phrase_buffer (self w)))
    (drop k (phrase_timestamps (self w))) n w w' ->
  lockstep w'.
Proof.
  intros [Hlen Hmax] (Hb & Hs & _). unfold lockstep.
  rewrite Hb, Hs, !length_drop. lia.
Qed.



Lemma Forall_drop_weak {A} (P : A -> Prop) k (l : list A) :
  Forall P l -> Forall P (drop k l).
Proof.
  intros H. rewrite <- (take_drop k l) in H.
  apply Forall_app in H. apply H.
Qed.

Lemma deque_append_drop {A} (x : A) (d : list A) :
  exists k, deque_append x d = drop k d ++ [x].
Proof.
  unfold deque_append. destruct (maxlen <=? length d)%nat.
  - exists 1%nat. destruct d; reflexivity.
  - exists 0%nat. reflexivity.
Qed.

Section Order.
Variable clock : nat -> Q.
Hypothesis clock_monotone : monotone clock.




Lemma same_agent_same_window w w' : same_agent w w' -> same_window w w'.
Proof.
  intros (Hs & Ht & _). unfold same_window. rewrite Hs, Ht.
  split; [reflexivity | split; [reflexivity | lia]].
Qed.


End Order.

Lemma same_window_lockstep w w' : same_window w w' -> keeps lockstep w w'.
Proof.
  intros (Hb & Hs & _) [Hlen Hmax]. unfold lockstep. rewrite Hb, Hs.
  split; assumption.
Qed.

Lemma append_word_lockstep clock word :
  within (keeps lockstep) (append_word clock word).
Proof.
  intros w [Hlen Hmax].
  destruct (append_word_run clock word w) as (w' & E & Hb & Hs & _).
  rewrite E. simpl. unfold lockstep.
  rewrite Hb, Hs, !deque_append_length by lia. lia.
Qed.

Lemma clean_lockstep clock : within (keeps lockstep) (_clean_old_phrases clock).
Proof.
  intros w Hlock. destruct (clean_run clock w Hlock) as (w' & E & H).
  rewrite E. simpl. eapply lockstep_drop; eassumption.
Qed.

Lemma reachable_lockstep clock json_loads w0 w :
  lockstep w0 -> reachable clock json_loads w0 w -> lockstep w.
Proof.
  intros H0 Hreach. revert H0.
  apply (within_reachable clock json_loads (keeps lockstep)); try assumption.
  - intros w1 w2 H. apply same_window_lockstep, same_agent_same_window, H.
  - apply append_word_lockstep.
  - apply clean_lockstep.
  - intros src p r w1. apply same_window_lockstep, check_rule_same_window.
Qed.

(** ** What the clean-up removes *)



Lemma stale_none now stamps :
  Forall (fun t => (now - t <= phrase_window)%Q) stamps -> stale now stamps = 0%nat.
Proof.
  intros H. destruct stamps as [|t0 stamps]; [reflexivity|]. simpl.
  apply Forall_cons in H. destruct H as [H0 _].
  destruct (QMicromega.Qlt_bool phrase_window (now - t0)) eqn:E; [|reflexivity].
  apply QMicromega.Qlt_bool_iff in E. lra.
Qed.


(** ** The sample clock and the fresh agent *)

Lemma every_second_monotone : monotone every_second.
Proof.
  intros i j H. unfold every_second. rewrite <- Zle_Qle. lia.
Qed.


(** ** One spoken word *)

Lemma audio_rules :
  default [] (_initialize_rules !! "audio_stt")
  = [ {| trigger := "open presentation"; action := "OPEN_PRESENTATION"; params := [] |};
      {| trigger := "next"; action := "NEXT_SLIDE"; params := [] |};
      {| trigger := "previous"; action := "PREVIOUS_SLIDE"; params := [] |} ].
Proof. vm_compute. reflexivity. Qed.

Lemma stale_head now t0 stamps :
  (now - t0 <= phrase_window)%Q -> stale now (t0 :: stamps) = 0%nat.
Proof.
  intros H. simpl.
  destruct (QMicromega.Qlt_bool phrase_window (now - t0)) eqn:E; [|reflexivity].
  apply QMicromega.Qlt_bool_iff in E. lra.
Qed.

Lemma check_rules_all_miss clock src p rs w :
  Forall (fun r => Py.str_in (Py.lower (trigger r)) p = false) rs ->
  check_rules clock src p rs w = (Ok tt, w).
Proof.
  induction 1 as [|r rs Hr _ IH]; [reflexivity|].
  rewrite check_rules_cons. unfold exec.
  rewrite check_rule_miss by exact Hr. exact IH.
Qed.

Lemma check_rule_fire clock src p r w :
  Py.str_in (Py.lower (trigger r)) p = true ->
  on_cooldown clock (action r) w = false ->
  let w' := exec (check_rule clock src p r) w in
  stdout w' = stdout w ++ [PrintMatched (Py.lower (trigger r)) p]
  /\ ticks w' = S (S (ticks w))
  /\ phrase_buffer (self w') = phrase_buffer (self w)
  /\ phrase_timestamps (self w') = phrase_timestamps (self w)
  /\ rules (self w') = rules (self w).
Proof.
  intros H1 H2 w'. unfold w', exec, check_rule. rewrite H1.
  unfold bind. rewrite was_recently_triggered_run, H2. repeat split.
Qed.

(** ** Dispatches of one action are spaced *)


Lemma same_agent_same_dispatch w w' : same_agent w w' -> same_dispatch w w'.
Proof. intros (Hs & _ & Ht). unfold same_dispatch. rewrite Hs, Ht. repeat split. Qed.




(** ** Two spoken words, far apart *)

Lemma audio_one_word clock word lw w buffer stamps :
  rules (self w) = _initialize_rules ->
  phrase_buffer (self w) = buffer ->
  phrase_timestamps (self w) = stamps ->
  length buffer = length stamps ->
  (length stamps < maxlen)%nat ->
  Py.strip word <> "" ->
  Py.split (Py.lower (Py.strip word)) = [lw] ->
  let k := stale (clock (S (ticks w))) (stamps ++ [clock (ticks w)]) in
  let phrase := Py.lower (Py.join " " (drop k (buffer ++ [lw]))) in
  exists w',
    apply_rules clock (event "audio_stt" word) w
    = check_rules clock "audio_stt" phrase
        [open_presentation_rule; next_rule;
         {| trigger := "previous"; action := "PREVIOUS_SLIDE"; params := [] |}] w'
    /\ phrase_buffer (self w') = drop k (buffer ++ [lw])
    /\ phrase_timestamps (self w') = drop k (stamps ++ [clock (ticks w)])
    /\ ticks w' = S (S (ticks w))
    /\ same_dispatch w w'.
Proof.
  intros Hrules Hb Hs Hlen Hmax Hne Hsplit k phrase.
  assert (Hlock : lockstep w).
  { unfold lockstep. rewrite Hb, Hs. split; [exact Hlen | lia]. }
  pose proof (apply_rules_audio clock word w Hlock Hne) as H.
  cbv zeta in H. rewrite Hsplit, Hb, Hs, Hrules, audio_rules in H.
  change (length [lw]) with 1%nat in H.
  change (map clock (seq (ticks w) 1)) with [clock (ticks w)] in H.
  rewrite !last_n_all in H by (rewrite length_app; simpl; lia).
  replace (ticks w + 1)%nat with (S (ticks w)) in H by lia.
  destruct H as (w' & E & H1 & H2 & H3 & H4 & _).
  exists w'. repeat split; try assumption; apply H4.
Qed.


(** * The claims of the specification *)

(** ** C1: which rules an event dispatches *)

(** C1, as the specification states it, fails: the gesture event whose
    content is "next previous" reaches a fresh agent and two tasks are
    created, one for NEXT_SLIDE and one for PREVIOUS_SLIDE, where the
    specification allows one. *)
Lemma C1_one_event_two_actions :
  ~ at_most_one_dispatch (fun _ => 0%Q) (event "gesture" "next previous") boot
  /\ map t_action
       (tasks (exec (apply_rules (fun _ => 0%Q) (event "gesture" "next previous"))
                 boot))
     = ["NEXT_SLIDE"; "PREVIOUS_SLIDE"].
Proof.
  split.
  - unfold at_most_one_dispatch. vm_compute. lia.
  - vm_compute. reflexivity.
Qed.

(** C1, amended.  The loop of [apply_rules] takes the rules of the source
    in table order and treats each on its own: whatever the rules before
    [r] did, the loop reaches [r] and goes on with the rules after it; it
    never raises; [r] creates a task exactly when its lowercased trigger
    occurs in the recent phrase and its action is not on cooldown in the
    state the loop is in when it reaches [r], and then exactly one; a
    trigger occurs in the phrase exactly when it is a contiguous run of it;
    and being on cooldown is what [_was_recently_triggered] answers.  So
    one event dispatches every candidate that is not suppressed, possibly
    several. *)
Theorem C1_rules_checked_in_order_each_on_its_own
    (clock : nat -> Q) (source recent_phrase : string)
    (before : list rule) (r : rule) (after : list rule) (w : world) :
  let w1 := exec (check_rules clock source recent_phrase before) w in
  let w2 := exec (check_rule clock source recent_phrase r) w1 in
  exec (check_rules clock source recent_phrase (before ++ r :: after)) w
  = exec (check_rules clock source recent_phrase after) w2
  /\ eval (check_rules clock source recent_phrase (before ++ r :: after)) w = Ok tt
  /\ tasks w2
     = tasks w1
       ++ (if Py.str_in (Py.lower (trigger r)) recent_phrase
              && negb (on_cooldown clock (action r) w1)
           then [ {| t_source := source; t_action := action r;
                     t_params := params r; t_content := recent_phrase;
                     t_tick := S (S (ticks w1)) |} ]
           else [])
  /\ (Py.str_in (Py.lower (trigger r)) recent_phrase = true
      <-> exists a b, recent_phrase = a +:+ Py.lower (trigger r) +:+ b)
  /\ eval (_was_recently_triggered clock (action r)) w1
     = Ok (on_cooldown clock (action r) w1).
Proof.
  intros w1 w2. repeat split.
  - unfold exec at 1. rewrite check_rules_app. fold w1.
    rewrite check_rules_cons. reflexivity.
  - apply check_rules_ok.
  - subst w2. destruct (Py.str_in _ _) eqn:Hin; simpl.
    + destruct (on_cooldown _ _ _) eqn:Hcd; simpl.
      * rewrite app_nil_r. apply (check_rule_cooldown_state _ _ _ _ _ Hin Hcd).
      * apply check_rule_fire_tasks; assumption.
    + unfold exec. rewrite check_rule_miss by assumption. simpl.
      rewrite app_nil_r. reflexivity.
  - apply str_in_spec.
  - apply str_in_spec.
  - unfold eval. rewrite was_recently_triggered_run. reflexivity.
Qed.

(** ** C2: sending without a connection *)

(** C2 fails on the code.  When [PDF_SERVER_CONNECTION] is [None],
    [send_to_pdf_server] returns at once and leaves the process as it was:
    [websockets.connect] is not called (the count of connect calls does not
    move), nothing is sent, nothing is printed, and the connection stays
    [None].  The payload is dropped without the connect attempt and the
    report of failure that the specification describes. *)
Theorem C2_send_without_connection_does_nothing
    (send_ok : bool) (action : string) (params : list (string * string))
    (w : world) :
  PDF_SERVER_CONNECTION w = None ->
  let w' := exec (send_to_pdf_server send_ok action params) w in
  eval (send_to_pdf_server send_ok action params) w = Ok tt
  /\ w' = w
  /\ connects w' = connects w
  /\ wire w' = wire w
  /\ stdout w' = stdout w
  /\ PDF_SERVER_CONNECTION w' = None.
Proof.
  intros H w'. subst w'.
  unfold eval, exec, send_to_pdf_server, bind, gets. simpl. rewrite H. simpl.
  repeat split; assumption.
Qed.

Lemma C2_send_without_connection_witness :
  PDF_SERVER_CONNECTION boot = None
  /\ connects (exec (send_to_pdf_server true "NEXT_SLIDE" []) boot) = 0%nat.
Proof.
  split; [reflexivity|].
  exact (proj1 (proj2 (proj2
    (C2_send_without_connection_does_nothing true "NEXT_SLIDE" [] boot eq_refl)))).
Defined.

(** ** C3: the cooldown gate *)



(** ** C4: two words make a phrase *)

(** C4.  On an agent with the rule table of the source and an empty phrase
    window, the word events "open" and "presentation" for "audio_stt" are
    handled one after the other.  If the clock never goes back, the phrase
    is read for the second word no more than 3 seconds after "open" was
    stamped, and OPEN_PRESENTATION is not suppressed when its rule is
    reached, then the window holds the two words, the recent phrase that
    is printed and matched is "open presentation", and exactly one task is
    created, for OPEN_PRESENTATION. *)
Theorem C4_open_then_presentation (clock : nat -> Q) (w : world) :
  monotone clock ->
  rules (self w) = _initialize_rules ->
  phrase_buffer (self w) = [] ->
  phrase_timestamps (self w) = [] ->
  (clock (ticks w + 3)%nat - clock (ticks w) <= 3)%Q ->
  (forall T, triggered_phrases (self w) !! "OPEN_PRESENTATION" = Some T ->
             ~ (clock (ticks w + 4)%nat - T < 2)%Q) ->
  let w1 := exec (apply_rules clock (event "audio_stt" "open")) w in
  let w2 := exec (apply_rules clock (event "audio_stt" "presentation")) w1 in
  phrase_buffer (self w2) = ["open"; "presentation"]
  /\ phrase_timestamps (self w2) = [clock (ticks w); clock (ticks w + 2)]
  /\ stdout w2
     = stdout w ++ [PrintEvent (JStr "audio_stt") "open";
                    PrintPhraseBuffer "open";
                    PrintEvent (JStr "audio_stt") "presentation";
                    PrintPhraseBuffer "open presentation";
                    PrintMatched "open presentation" "open presentation"]
  /\ tasks w2
     = tasks w ++ [ {| t_source := "audio_stt"; t_action := "OPEN_PRESENTATION";
                       t_params := []; t_content := "open presentation";
                       t_tick := ticks w + 6 |} ].
Proof.
  intros Hmono Hrules Hb Hs Hnear Hfree w1 w2.
  assert (Hlock : lockstep w).
  { unfold lockstep. rewrite Hb, Hs. unfold maxlen. simpl. lia. }
  (* the first word *)
  pose proof (apply_rules_audio clock "open" w Hlock ltac:(discriminate)) as H1.
  cbv zeta in H1.
  change (Py.split (Py.lower (Py.strip "open"))) with ["open"] in H1.
  change (Py.strip "open") with "open" in H1.
  rewrite Hb, Hs, Hrules, audio_rules in H1.
  change (length ["open"]) with 1%nat in H1.
  change (map clock (seq (ticks w) 1)) with [clock (ticks w)] in H1.
  rewrite !app_nil_l in H1.
  rewrite !last_n_all in H1 by (unfold maxlen; simpl; lia).
  rewrite stale_head in H1.
  2:{ pose proof (Hmono (ticks w + 1) (ticks w + 3) ltac:(lia))%nat.
      unfold phrase_window. lra. }
  rewrite !drop_0 in H1.
  change (Py.lower (Py.join " " ["open"])) with "open" in H1.
  destruct H1 as (wa & Ea & Hba & Hsa & Hta & Hda & Hlocka & Hoa).
  assert (Hw1 : w1 = wa).
  { unfold w1, exec. rewrite Ea, check_rules_all_miss; [reflexivity|].
    repeat constructor. }
  clearbody w1. subst w1. clear Ea.
  destruct Hda as (Htaska & Hrega & Hrulesa).
  (* the second word *)
  pose proof (apply_rules_audio clock "presentation" wa Hlocka
                ltac:(discriminate)) as H2.
  cbv zeta in H2.
  change (Py.split (Py.lower (Py.strip "presentation")))
    with ["presentation"] in H2.
  change (Py.strip "presentation") with "presentation" in H2.
  rewrite Hba, Hsa, Hta, Hrulesa, Hrules, audio_rules in H2.
  change (length ["presentation"]) with 1%nat in H2.
  change (map clock (seq (S (ticks w + 1)) 1))
    with [clock (S (ticks w + 1))] in H2.
  change (["open"] ++ ["presentation"]) with ["open"; "presentation"] in H2.
  change ([clock (ticks w)] ++ [clock (S (ticks w + 1))])
    with [clock (ticks w); clock (S (ticks w + 1))] in H2.
  rewrite !last_n_all in H2 by (unfold maxlen; simpl; lia).
  replace (S (ticks w + 1) + 1)%nat with (ticks w + 3)%nat in H2 by lia.
  replace (S (ticks w + 1))%nat with (ticks w + 2)%nat in H2 by lia.
  rewrite stale_head in H2 by exact Hnear.
  rewrite !drop_0 in H2.
  change (Py.lower (Py.join " " ["open"; "presentation"]))
    with "open presentation" in H2.
  destruct H2 as (wb & Eb & Hbb & Hsb & Htb & Hdb & Hlockb & Hob).
  destruct Hdb as (Htaskb & Hregb & Hrulesb).
  assert (Hcd : on_cooldown clock "OPEN_PRESENTATION" wb = false).
  { unfold on_cooldown. rewrite Hregb, Hrega, Htb.
    destruct (triggered_phrases (self w) !! "OPEN_PRESENTATION") as [T|] eqn:ET;
      [|reflexivity].
    destruct (QMicromega.Qlt_bool _ _) eqn:E; [|reflexivity].
    apply QMicromega.Qlt_bool_iff in E. exfalso.
    apply (Hfree T eq_refl).
    replace (ticks w + 4)%nat with (S (ticks w + 3)) by lia. exact E. }
  assert (Hw2 : w2 = exec (check_rule clock "audio_stt" "open presentation"
                             open_presentation_rule) wb).
  { unfold w2, exec at 1. rewrite Eb, check_rules_cons, check_rules_all_miss;
      [reflexivity|]. repeat constructor. }
  clearbody w2. subst w2.
  destruct (check_rule_fire clock "audio_stt" "open presentation"
              open_presentation_rule wb eq_refl Hcd)
    as (Ho & Ht & Hbuf & Hst & _).
  rewrite Hbuf, Hst, Ho, Hob, Hoa, <- !app_assoc.
  rewrite (check_rule_fire_tasks clock "audio_stt" "open presentation"
             open_presentation_rule wb eq_refl Hcd).
  rewrite Htaskb, Htaska, Htb.
  repeat split; try assumption.
  simpl. do 3 f_equal. lia.
Qed.

Lemma C4_open_then_presentation_witness :
  monotone every_second
  /\ rules (self boot) = _initialize_rules
  /\ phrase_buffer (self boot) = []
  /\ phrase_timestamps (self boot) = []
  /\ (every_second 3 - every_second 0 <= 3)%Q
  /\ (forall T, triggered_phrases (self boot) !! "OPEN_PRESENTATION" = Some T ->
                ~ (every_second 4 - T < 2)%Q)
  /\ map t_action
       (tasks (exec (apply_rules every_second (event "audio_stt" "presentation"))
                 (exec (apply_rules every_second (event "audio_stt" "open"))
                    boot)))
     = ["OPEN_PRESENTATION"].
Proof.
  pose proof every_second_monotone as H1.
  assert (H5 : (every_second (ticks boot + 3) - every_second (ticks boot) <= 3)%Q).
  { vm_compute. discriminate. }
  assert (H6 : forall T,
             triggered_phrases (self boot) !! "OPEN_PRESENTATION" = Some T ->
             ~ (every_second (ticks boot + 4) - T < 2)%Q).
  { intros T HT. discriminate HT. }
  split; [exact H1|]. split; [reflexivity|]. split; [reflexivity|].
  split; [reflexivity|]. split; [exact H5|]. split; [exact H6|].
  exact (f_equal (map t_action)
           (proj2 (proj2 (proj2
              (C4_open_then_presentation every_second boot H1 eq_refl eq_refl
                 eq_refl H5 H6))))).
Defined.

(** ** C5: the phrase window by age *)



(** ** C6: the mark is written when the rule matches *)



(** ** C7: which actions reach the PDF server *)

(** C7.  [_delegate_action_async] announces the action and then hands the
    payload to [send_to_pdf_server] exactly when the action is one of
    OPEN_PRESENTATION, NEXT_SLIDE, PREVIOUS_SLIDE and GO_TO_SLIDE: for these
    it goes on as [send_to_pdf_server] does; for any other action it stops
    after the announcement, and neither the wire nor the connection
    changes.  With a connection at hand and a send that succeeds, the
    command appears on the wire exactly for those four actions.  The
    action is printed in every case.  A vision event "cardboard" reaching a
    fresh agent that holds a connection creates the task for
    ZOOM_ON_OBJECT, and running that task prints the action and sends
    nothing. *)
Theorem C7_only_slide_actions_are_sent
    (send_ok : bool) (source action : string) (params : list (string * string))
    (content : string) (w : world) :
  let slide := In action ["OPEN_PRESENTATION"; "NEXT_SLIDE"; "PREVIOUS_SLIDE";
                          "GO_TO_SLIDE"] in
  let wa := exec (announce source action params content) w in
  let w' := exec (_delegate_action_async send_ok source action params content) w in
  (slide -> w' = exec (send_to_pdf_server send_ok action params) wa)
  /\ (~ slide ->
      w' = wa /\ wire w' = wire w
      /\ PDF_SERVER_CONNECTION w' = PDF_SERVER_CONNECTION w)
  /\ (forall k, PDF_SERVER_CONNECTION w = Some k -> send_ok = true ->
      (wire w' = wire w ++ [ {| c_action := action; c_params := params |} ]
       <-> slide))
  /\ PrintDelegating action params ∈ stdout w'
  /\ (forall clock : nat -> Q,
      let seen := exec (apply_rules clock (event "vision_vlm" "cardboard"))
                    (with_connection (Some 0%nat) boot) in
      let ran := exec (run_task send_ok) seen in
      tasks seen = [ {| t_source := "vision_vlm"; t_action := "ZOOM_ON_OBJECT";
                        t_params := [("target", "cardboard")];
                        t_content := "cardboard"; t_tick := 2 |} ]
      /\ tasks_run ran = 1%nat
      /\ wire ran = []
      /\ PrintDelegating "ZOOM_ON_OBJECT" [("target", "cardboard")] ∈ stdout ran).
Proof.
  intros slide wa w'.
  assert (Hrun : _delegate_action_async send_ok source action params content w
                 = (if str_in_list action slide_actions
                    then send_to_pdf_server send_ok action params
                    else ret tt) wa).
  { unfold _delegate_action_async, bind, wa, exec.
    rewrite announce_run. reflexivity. }
  assert (Hwa : wa = with_stdout (stdout w ++ [PrintBanner; PrintIntent source;
                                       PrintTriggerContent (Py.take 50 content);
                                       PrintDelegating action params; PrintBanner]) w).
  { unfold wa, exec. rewrite announce_run. reflexivity. }
  assert (Hslide : slide -> str_in_list action slide_actions = true).
  { intros H. apply str_in_list_In. exact H. }
  assert (Hother : ~ slide -> str_in_list action slide_actions = false).
  { intros H. destruct (str_in_list action slide_actions) eqn:E; [|reflexivity].
    apply str_in_list_In in E. contradiction. }
  clearbody wa. subst w'. unfold exec. rewrite Hrun. clear Hrun.
  split; [|split; [|split; [|split]]].
  - intros H. rewrite (Hslide H). reflexivity.
  - intros H. rewrite (Hother H). simpl.
    rewrite Hwa. repeat split.
  - intros k Hk ->.
    destruct (str_in_list action slide_actions) eqn:E.
    + apply str_in_list_In in E. rewrite Hwa.
      unfold send_to_pdf_server, bind, gets. simpl. rewrite Hk. simpl.
      split; [intros _; exact E | reflexivity].
    + simpl. rewrite Hwa. simpl. split.
      * intros H. apply (f_equal length) in H. rewrite length_app in H.
        simpl in H. lia.
      * intros H. specialize (Hslide H). discriminate.
  - assert (Hin : PrintDelegating action params ∈ stdout wa).
    { rewrite Hwa. simpl. apply elem_of_app. right.
      do 3 apply list_elem_of_further. apply list_elem_of_here. }
    destruct (str_in_list action slide_actions); [|exact Hin].
    pose proof (send_same_agent send_ok action params wa) as Hs.
    unfold send_to_pdf_server, bind, gets in *. simpl.
    destruct (PDF_SERVER_CONNECTION wa); [destruct send_ok|]; simpl;
      try exact Hin; apply elem_of_app; left; exact Hin.
  - intros clock. cbv zeta. clear.
    destruct send_ok.
    all: split; [vm_compute; reflexivity|].
    all: split; [vm_compute; reflexivity|].
    all: split; [vm_compute; reflexivity|].
    all: match goal with
         | |- ?x ∈ ?l => let l' := eval vm_compute in l in change (x ∈ l')
         end.
    all: repeat first [apply list_elem_of_here | apply list_elem_of_further].
Qed.

Lemma C7_only_slide_actions_witness :
  In "NEXT_SLIDE" ["OPEN_PRESENTATION"; "NEXT_SLIDE"; "PREVIOUS_SLIDE";
                   "GO_TO_SLIDE"]
  /\ PDF_SERVER_CONNECTION (with_connection (Some 0%nat) boot) = Some 0%nat
  /\ wire (exec (_delegate_action_async true "gesture" "NEXT_SLIDE" [] "next")
             (with_connection (Some 0%nat) boot))
     = [ {| c_action := "NEXT_SLIDE"; c_params := [] |} ].
Proof.
  assert (H1 : In "NEXT_SLIDE" ["OPEN_PRESENTATION"; "NEXT_SLIDE";
                                "PREVIOUS_SLIDE"; "GO_TO_SLIDE"])
    by (right; left; reflexivity).
  split; [exact H1|]. split; [reflexivity|].
  exact (proj2 (proj1 (proj2 (proj2
           (C7_only_slide_actions_are_sent true "gesture" "NEXT_SLIDE" [] "next"
              (with_connection (Some 0%nat) boot)))) 0%nat eq_refl eq_refl) H1).
Defined.

(** ** C8: messages that are not events *)

(** C8 fails on the code for JSON texts that decode to something other
    than an object, a list or a string.  On the message [null],
    [parse_message] does not return [None]: the test ['source' not in data]
    raises [TypeError], which [parse_message] does not catch.  The
    exception leaves the loop of [connection_handler], which prints it and
    returns, so the connection is closed and no message after [null] is
    read: whatever follows, the handler prints only its greeting, the
    error and its farewell.  The agent and the task queue are unchanged. *)
Theorem C8_json_null_ends_the_connection
    (clock : nat -> Q) (json_loads : string -> option json)
    (client : nat) (rest : list string) (clean_close : bool) (w : world) :
  json_loads "null" = Some JNull ->
  let w' := exec (connection_handler clock json_loads client ("null" :: rest)
                    clean_close) w in
  eval (handle_message clock json_loads "null") w = Raise TypeError
  /\ eval (connection_handler clock json_loads client ("null" :: rest)
             clean_close) w = Ok (Some TypeError)
  /\ stdout w' = stdout w ++ [PrintNewAgent client; PrintError TypeError;
                              PrintDisconnected client]
  /\ self w' = self w
  /\ tasks w' = tasks w.
Proof.
  intros H w'. subst w'.
  unfold eval, exec, connection_handler, try_except, handle_message,
    parse_message, bind, print, modify. simpl. rewrite H. simpl.
  rewrite <- !app_assoc. repeat split.
Qed.

Lemma C8_json_null_witness :
  sample_loads "null" = Some JNull
  /\ eval (handle_message every_second sample_loads "null") boot = Raise TypeError.
Proof.
  split; [reflexivity|].
  exact (proj1 (C8_json_null_ends_the_connection every_second sample_loads
                  0%nat [gesture_next_message] true boot eq_refl)).
Defined.

(** ** C9: the phrase window by capacity *)

(** C9.  [maxlen] is 10.  In every state the process reaches from one
    whose deques are paired and within capacity, the window holds at most
    10 words, one timestamp each.  Appending words keeps the last 10 of
    the old words followed by the new ones, and the same for the
    timestamps, whatever the clock reads: the oldest entries go first.
    If the timestamps kept are all within the time window when the phrase
    is read, the recent phrase is those last 10 words, joined and
    lowercased.  An audio event appends the words of its content this
    way, and the window it leaves holds at most 10 words. *)
Theorem C9_window_by_capacity
    (clock : nat -> Q) (json_loads : string -> option json)
    (w0 w : world) (words : list string) (content : string) :
  lockstep w0 ->
  reachable clock json_loads w0 w ->
  Py.strip content <> "" ->
  let wa := exec (for_each words (append_word clock)) w in
  let we := exec (apply_rules clock (event "audio_stt" content)) w in
  maxlen = 10%nat
  /\ (length (phrase_buffer (self w)) <= 10)%nat
  /\ length (phrase_timestamps (self w)) = length (phrase_buffer (self w))
  /\ phrase_buffer (self wa) = last_n 10 (phrase_buffer (self w) ++ words)
  /\ phrase_timestamps (self wa)
     = last_n 10 (phrase_timestamps (self w)
                  ++ map clock (seq (ticks w) (length words)))
  /\ (Forall (fun t => (clock (ticks wa) - t <= phrase_window)%Q)
        (phrase_timestamps (self wa)) ->
      eval (_get_recent_phrase clock) wa
      = Ok (Py.lower (Py.join " " (last_n 10 (phrase_buffer (self w) ++ words)))))
  /\ (exists k,
        phrase_buffer (self we)
        = drop k (last_n 10 (phrase_buffer (self w)
                             ++ Py.split (Py.lower (Py.strip content)))))
  /\ (length (phrase_buffer (self we)) <= 10)%nat.
Proof.
  intros H0 Hreach Hne wa we.
  pose proof (reachable_lockstep clock json_loads w0 w H0 Hreach) as Hlock.
  destruct (append_words_run clock words w Hlock)
    as (w1 & E1 & (Hb1 & Hs1 & Ht1 & Ho1 & Hd1) & Hlock1).
  assert (Hwa : wa = w1) by (unfold wa, exec; rewrite E1; reflexivity).
  destruct (apply_rules_audio clock content w Hlock Hne)
    as (w2 & E2 & Hb2 & Hs2 & Ht2 & Hd2 & Hlock2 & Ho2).
  assert (Hwe : same_window w2 we).
  { unfold we, exec. rewrite E2. apply check_rules_same_window. }
  destruct Hlock as [Hlen Hmax].
  split; [reflexivity|]. split; [unfold maxlen in Hmax; lia|].
  split; [symmetry; exact Hlen|].
  rewrite Hwa. split; [exact Hb1|]. split; [exact Hs1|]. split; [|split].
  - intros Hall.
    destruct (get_recent_phrase_run clock w1 Hlock1) as (w3 & E3 & _).
    unfold eval. rewrite E3. simpl.
    rewrite (stale_none _ _ Hall), drop_0, Hb1. reflexivity.
  - destruct Hwe as (Hb & _). rewrite Hb, Hb2. eexists. reflexivity.
  - destruct Hwe as (Hb & Hs & _). destruct Hlock2 as [Hlen2 Hmax2].
    rewrite Hb, Hlen2. exact Hmax2.
Qed.

Lemma C9_window_by_capacity_witness :
  lockstep boot
  /\ reachable every_second sample_loads boot boot
  /\ Py.strip eleven_words <> ""
  /\ phrase_buffer
       (self (exec (for_each (Py.split eleven_words) (append_word every_second))
                boot))
     = ["b"; "c"; "d"; "e"; "f"; "g"; "h"; "i"; "j"; "k"].
Proof.
  assert (H1 : lockstep boot) by (split; [reflexivity | unfold maxlen; simpl; lia]).
  assert (H2 : reachable every_second sample_loads boot boot)
    by apply reachable_start.
  assert (H3 : Py.strip eleven_words <> "") by discriminate.
  split; [exact H1|]. split; [exact H2|]. split; [exact H3|].
  exact (proj1 (proj2 (proj2 (proj2
    (C9_window_by_capacity every_second sample_loads boot boot
       (Py.split eleven_words) eleven_words H1 H2 H3))))).
Defined.

(** ** C10: a suppressed match does not touch the registry *)

(** C10.  Over any run of the process from [w] to [w'] in which no task
    for the action [a] was created, the registry holds for [a] in [w'] the
    timestamp it held in [w]; so in [w'] the action is suppressed exactly
    when the reading of the clock is less than [cooldown] after that
    timestamp, however many suppressed matches lie in between.  In
    particular a matching rule whose action is suppressed leaves both the
    registry and the task queue as they were. *)
Theorem C10_suppressed_matches_keep_the_timestamp
    (clock : nat -> Q) (json_loads : string -> option json)
    (a : string) (w w' : world) :
  reachable clock json_loads w w' ->
  (forall t, t ∈ drop (length (tasks w)) (tasks w') -> t_action t <> a) ->
  triggered_phrases (self w') !! a = triggered_phrases (self w) !! a
  /\ eval (_was_recently_triggered clock a) w'
     = Ok (match triggered_phrases (self w) !! a with
           | Some T => QMicromega.Qlt_bool (clock (ticks w') - T) cooldown
           | None => false
           end)
  /\ (forall (source phrase : string) (r : rule),
        action r = a ->
        Py.str_in (Py.lower (trigger r)) phrase = true ->
        eval (_was_recently_triggered clock a) w' = Ok true ->
        let w'' := exec (check_rule clock source phrase r) w' in
        triggered_phrases (self w'') = triggered_phrases (self w')
        /\ tasks w'' = tasks w').
Proof.
  intros Hreach Hnew.
  assert (Hkeep : triggered_phrases (self w') !! a
                  = triggered_phrases (self w) !! a).
  { destruct (reachable_registry_frame clock json_loads a w w' Hreach)
      as (new & Ht & Hr).
    apply Hr. intros t Hin. apply Hnew.
    rewrite Ht, drop_app_length. exact Hin. }
  split; [exact Hkeep|]. split.
  - unfold eval. rewrite was_recently_triggered_run. simpl.
    unfold on_cooldown. rewrite Hkeep. reflexivity.
  - intros source phrase r Ha Hin Hsup w''.
    unfold eval in Hsup. rewrite was_recently_triggered_run in Hsup.
    simpl in Hsup. injection Hsup as Hsup. rewrite <- Ha in Hsup.
    destruct (check_rule_cooldown_state clock source phrase r w' Hin Hsup)
      as (Ht & Hr & _).
    split; assumption.
Qed.

Lemma C10_suppressed_matches_witness :
  reachable every_second sample_loads after_first_next after_second_next
  /\ (forall t,
        t ∈ drop (length (tasks after_first_next)) (tasks after_second_next) ->
        t_action t <> "NEXT_SLIDE")
  /\ triggered_phrases (self after_second_next) !! "NEXT_SLIDE"
     = triggered_phrases (self after_first_next) !! "NEXT_SLIDE".
Proof.
  assert (H1 : reachable every_second sample_loads
                 after_first_next after_second_next).
  { eapply reachable_step; [apply reachable_start|].
    apply (step_message every_second sample_loads gesture_next_message). }
  assert (H2 : forall t,
             t ∈ drop (length (tasks after_first_next)) (tasks after_second_next) ->
             t_action t <> "NEXT_SLIDE").
  { intros t Ht. vm_compute in Ht. inversion Ht. }
  split; [exact H1|]. split; [exact H2|].
  exact (proj1 (C10_suppressed_matches_keep_the_timestamp every_second
                  sample_loads "NEXT_SLIDE" after_first_next after_second_next
                  H1 H2)).
Defined.

(** * Further properties of the code *)

(** ** A second frame rule: computations that only print, read the clock,
    move the phrase window and dispatch *)

Section Frame.
Variable clock : nat -> Q.
Variable json_loads : string -> option json.
Context (R : world -> world -> Prop) `{!PreOrder R}.
Hypothesis Hprint : forall l, within R (print l).
Hypothesis Hwords : forall s,
  within R (for_each (Py.split (Py.lower s)) (append_word clock)).
Hypothesis Hclean : within R (_clean_old_phrases clock).
Hypothesis Hrules : forall src p,
  within R (bind (gets (fun w => default [] (rules (self w) !! src)))
              (fun source_rules => check_rules clock src p source_rules)).

Lemma frame_apply_rules data : within R (apply_rules clock data).
Proof.
  unfold apply_rules.
  destruct (dict_get "content" data (JStr "")); try (apply within_raise; assumption).
  apply within_bind; [assumption | apply Hprint | intros _].
  destruct (_ || _); [apply within_ret; assumption|].
  apply within_bind; [assumption | | intros p].
  - destruct (is_str _ _); [|apply within_ret; assumption].
    apply within_bind; [assumption | apply Hwords | intros _].
    apply within_bind; [assumption | | intros p].
    { unfold _get_recent_phrase.
      apply within_bind; [assumption | exact Hclean | intros _].
      apply within_bind; [assumption | apply within_gets; assumption | intros b].
      apply within_ret; assumption. }
    apply within_bind; [assumption | apply Hprint | intros _].
    apply within_ret; assumption.
  - destruct (dict_get "source" data JNull);
      try (apply within_ret; assumption); try (apply within_raise; assumption).
    apply Hrules.
Qed.

Lemma frame_parse_message msg : within R (parse_message json_loads msg).
Proof.
  unfold parse_message.
  destruct (json_loads msg) as [data|].
  - destruct (py_in "source" data) as [[]|]; [| |apply within_raise; assumption].
    + destruct (py_in "content" data) as [[]|];
        [apply within_ret; assumption | | apply within_raise; assumption].
      apply within_bind; [assumption | apply Hprint | intros _].
      apply within_ret; assumption.
    + apply within_bind; [assumption | apply Hprint | intros _].
      apply within_ret; assumption.
  - apply within_bind; [assumption | apply Hprint | intros _].
    apply within_ret; assumption.
Qed.

Lemma frame_handle_message msg :
  within R (handle_message clock json_loads msg).
Proof.
  unfold handle_message.
  apply within_bind; [assumption | apply frame_parse_message | intros [d|]];
    [|apply within_ret; assumption].
  destruct (truthy d); [|apply within_ret; assumption].
  apply within_bind; [assumption | | intros src].
  { destruct d; try (apply within_raise; assumption). apply within_ret; assumption. }
  apply within_bind; [assumption | | intros c].
  { destruct d; try (apply within_raise; assumption). apply within_ret; assumption. }
  apply within_bind; [assumption | | intros shown].
  { destruct c; try (apply within_raise; assumption); apply within_ret; assumption. }
  apply within_bind; [assumption | apply Hprint | intros _].
  destruct d; try (apply within_raise; assumption).
  apply frame_apply_rules.
Qed.

Hypothesis Htask : forall send_ok, within R (run_task send_ok).

Hypothesis Hconnect : forall connect_ok, within R (connect_to_pdf_server connect_ok).

Lemma frame_reachable w0 w : reachable clock json_loads w0 w -> R w0 w.
Proof.
  induction 1 as [|w w' _ IH Hstep]; [reflexivity|].
  etransitivity; [exact IH|].
  destruct Hstep as [msg w1 | ok w1 | ok w1].
  - apply frame_handle_message.
  - apply Htask.
  - apply Hconnect.
Qed.

End Frame.

(** Rules that are checked one by one. *)
Lemma frame_rules clock (R : world -> world -> Prop) `{!PreOrder R} :
  (forall src p r, within R (check_rule clock src p r)) ->
  forall src p,
  within R (bind (gets (fun w => default [] (rules (self w) !! src)))
              (fun source_rules => check_rules clock src p source_rules)).
Proof.
  intros H src p.
  apply within_bind; [assumption | apply within_gets; assumption | intros rs].
  apply within_for_each; [assumption | apply H].
Qed.

#[local] Instance same_globals_preorder : PreOrder same_globals.
Proof.
  split.
  - intros w. repeat split.
  - intros w1 w2 w3 (H1 & H2 & H3 & H4 & H5) (H6 & H7 & H8 & H9 & H10).
    repeat split; congruence.
Qed.

#[local] Instance window_only_preorder : PreOrder window_only.
Proof.
  split.
  - intros w. repeat split. reflexivity.
  - intros w1 w2 w3 (H1 & H2 & H3 & H4) (H5 & H6 & H7 & H8).
    split; [etransitivity; eassumption|].
    split; [etransitivity; eassumption|].
    split; [congruence | lia].
Qed.

Lemma append_word_window_only clock word :
  within window_only (append_word clock word).
Proof. intros w. repeat split. simpl. lia. Qed.

Lemma clean_loop_window_only now stamps :
  within window_only (clean_loop now stamps).
Proof.
  induction stamps as [|t0 stamps IH]; simpl.
  - apply within_ret; typeclasses eauto.
  - destruct (QMicromega.Qlt_bool _ _); [|apply within_ret; typeclasses eauto].
    apply within_bind; [typeclasses eauto| |intros _].
    { intros w. unfold popleft_timestamps, bind, gets. simpl.
      destruct (phrase_timestamps (self w)); repeat split; reflexivity. }
    apply within_bind; [typeclasses eauto| |intros _; exact IH].
    intros w. unfold popleft_buffer, bind, gets. simpl.
    destruct (phrase_buffer (self w)); repeat split; reflexivity.
Qed.

Lemma clean_window_only clock : within window_only (_clean_old_phrases clock).
Proof.
  unfold _clean_old_phrases.
  apply within_bind; [typeclasses eauto | | intros now].
  { intros w. repeat split. simpl. lia. }
  apply within_bind; [typeclasses eauto | apply within_gets; typeclasses eauto |].
  intros stamps. apply clean_loop_window_only.
Qed.

(** What a frame has to grant for a message to stay within it: the window
    may move, lines may be printed, and the rules of the table may be
    checked. *)
Lemma frame_message clock json_loads (R : world -> world -> Prop) `{!PreOrder R} :
  (forall w w', window_only w w' -> R w w') ->
  (forall l, within R (print l)) ->
  (forall src p,
     within R (bind (gets (fun w => default [] (rules (self w) !! src)))
                 (fun source_rules => check_rules clock src p source_rules))) ->
  forall msg, within R (handle_message clock json_loads msg).
Proof.
  intros Hw Hp Hr msg. apply frame_handle_message; try assumption.
  - intros s. apply within_for_each; [assumption|].
    intros word. apply (within_weaken window_only); [exact Hw|].
    apply append_word_window_only.
  - apply (within_weaken window_only); [exact Hw|]. apply clean_window_only.
Qed.

Lemma check_rule_same_globals clock src p r :
  within same_globals (check_rule clock src p r).
Proof.
  intros w. unfold check_rule. destruct (Py.str_in _ _); [|repeat split].
  unfold bind. rewrite was_recently_triggered_run.
  destruct (on_cooldown _ _ _); repeat split.
Qed.

Lemma handle_message_same_globals clock json_loads msg :
  within same_globals (handle_message clock json_loads msg).
Proof.
  apply frame_message.
  - typeclasses eauto.
  - intros w w' H. apply H.
  - intros l w. repeat split.
  - apply frame_rules; [typeclasses eauto | apply check_rule_same_globals].
Qed.

(** ** The connection handler *)

Lemma stdout_grows_preorder :
  PreOrder (fun w w' : world => exists l, stdout w' = stdout w ++ l).
Proof.
  split.
  - intros w. exists []. symmetry. apply app_nil_r.
  - intros w1 w2 w3 [l1 H1] [l2 H2]. exists (l1 ++ l2).
    rewrite H2, H1. symmetry. apply app_assoc.
Qed.

Lemma handle_message_prints clock json_loads msg :
  within (fun w w' => exists l, stdout w' = stdout w ++ l)
    (handle_message clock json_loads msg).
Proof.
  pose proof stdout_grows_preorder as HP.
  assert (Hsame : forall w w' : world,
             stdout w' = stdout w -> exists l, stdout w' = stdout w ++ l).
  { intros w w' H. exists []. rewrite H. symmetry. apply app_nil_r. }
  apply frame_message.
  - exact HP.
  - intros w w' H. apply Hsame, H.
  - intros l w. exists [l]. reflexivity.
  - apply frame_rules; [exact HP|].
    intros src p r w. unfold check_rule.
    destruct (Py.str_in _ _); [|apply Hsame; reflexivity].
    unfold bind. rewrite was_recently_triggered_run.
    destruct (on_cooldown _ _ _); simpl; eexists; reflexivity.
Qed.

Lemma handle_messages_same_globals clock json_loads msgs :
  within same_globals (for_each msgs (handle_message clock json_loads)).
Proof.
  apply within_for_each; [typeclasses eauto|].
  intros m. apply handle_message_same_globals.
Qed.

Lemma handle_messages_prints clock json_loads msgs :
  within (fun w w' => exists l, stdout w' = stdout w ++ l)
    (for_each msgs (handle_message clock json_loads)).
Proof.
  apply within_for_each; [apply stdout_grows_preorder|].
  intros m. apply handle_message_prints.
Qed.

Lemma connection_handler_run clock json_loads client messages clean_close w :
  exists ended l w2,
    connection_handler clock json_loads client messages clean_close w
    = (Ok ended,
       with_stdout (stdout w2 ++ [PrintDisconnected client])
         (with_clients (fun s => s ∖ {[client]}) w2))
    /\ same_globals
         (with_clients (fun s => {[client]} ∪ s)
            (with_stdout (stdout w ++ [PrintNewAgent client]) w)) w2
    /\ stdout w2 = stdout w ++ PrintNewAgent client :: l.
Proof.
  unfold connection_handler.
  unfold bind at 1. unfold print at 1, modify at 1.
  unfold bind at 1. unfold modify at 1.
  set (w1 := with_clients _ _).
  unfold bind at 1.
  set (body := bind (for_each messages (handle_message clock json_loads)) _).
  assert (Hg : within same_globals body).
  { apply within_bind; [typeclasses eauto | apply handle_messages_same_globals|].
    intros _. apply within_bind; [typeclasses eauto | | intros _].
    - destruct clean_close; intros v; repeat split.
    - apply within_ret. typeclasses eauto. }
  assert (Hp : within (fun w w' => exists l, stdout w' = stdout w ++ l) body).
  { pose proof stdout_grows_preorder as HP.
    apply within_bind; [exact HP | apply handle_messages_prints|].
    intros _. apply within_bind; [exact HP | | intros _].
    - destruct clean_close; intros v; simpl.
      + exists []. symmetry. apply app_nil_r.
      + exists [PrintClosed client]. reflexivity.
    - apply within_ret. exact HP. }
  specialize (Hg w1). specialize (Hp w1). unfold try_except.
  destruct (body w1) as [[ended|e] w2]; simpl in Hg, Hp; destruct Hp as [l Hl].
  - exists ended, l, w2. split; [reflexivity|]. split; [exact Hg|].
    rewrite Hl. rewrite <- app_assoc. reflexivity.
  - exists (Some e), (l ++ [PrintError e]),
      (with_stdout (stdout w2 ++ [PrintError e]) w2).
    split; [reflexivity|]. split; [exact Hg|].
    simpl. rewrite Hl. rewrite <- !app_assoc. reflexivity.
Qed.

(** X1.  [connection_handler] always returns, whatever the messages are
    and however the loop ends: its [finally] clause has then removed the
    client from [CONNECTED_CLIENTS] and printed the farewell as the last
    line, after the greeting printed first.  The handler itself changes the
    membership of no other client, does not touch the connection to the PDF
    server, and sends nothing. *)
Theorem X1_handler_always_unregisters
    (clock : nat -> Q) (json_loads : string -> option json)
    (client : nat) (messages : list string) (clean_close : bool) (w : world) :
  let run := connection_handler clock json_loads client messages clean_close in
  let w' := exec run w in
  (exists ended, eval run w = Ok ended)
  /\ (client ∉ CONNECTED_CLIENTS w')
  /\ (forall c, c <> client ->
        (c ∈ CONNECTED_CLIENTS w') <-> (c ∈ CONNECTED_CLIENTS w))
  /\ (exists l, stdout w'
                = stdout w ++ PrintNewAgent client :: l ++ [PrintDisconnected client])
  /\ PDF_SERVER_CONNECTION w' = PDF_SERVER_CONNECTION w
  /\ wire w' = wire w
  /\ connects w' = connects w
  /\ tasks_run w' = tasks_run w.
Proof.
  intros run w'. subst w' run. unfold exec, eval.
  destruct (connection_handler_run clock json_loads client messages clean_close w)
    as (ended & l & w2 & -> & (H1 & H2 & H3 & H4 & H5) & Hl).
  simpl in *.
  split; [eexists; reflexivity|].
  split.
  { rewrite H1. intros [_ Hn]%elem_of_difference.
    apply Hn, elem_of_singleton. reflexivity. }
  split.
  { intros c Hc. rewrite H1, elem_of_difference, elem_of_union.
    rewrite !elem_of_singleton. tauto. }
  split.
  { exists l. rewrite Hl. rewrite <- app_assoc. reflexivity. }
  repeat split; assumption.
Qed.

Lemma handle_message_rejected clock json_loads message w :
  rejected json_loads message = true ->
  handle_message clock json_loads message w
  = (Ok tt, with_stdout (stdout w ++ [rejection json_loads message]) w).
Proof.
  unfold rejected, rejection, handle_message, parse_message. intros H.
  destruct (json_loads message) as [data|]; [|reflexivity].
  destruct (py_in "source" data) as [[]|]; [|reflexivity|discriminate].
  destruct (py_in "content" data) as [[]|]; [discriminate|reflexivity|discriminate].
Qed.

Lemma handle_messages_rejected clock json_loads messages w :
  Forall (fun m => rejected json_loads m = true) messages ->
  for_each messages (handle_message clock json_loads) w
  = (Ok tt, with_stdout (stdout w ++ map (rejection json_loads) messages) w).
Proof.
  intros H. revert w. induction H as [|m ms Hm _ IH]; intros w.
  - simpl. unfold ret. rewrite app_nil_r. destruct w; reflexivity.
  - simpl for_each.
    rewrite (bind_ok _ _ _ _ _ (handle_message_rejected clock _ _ w Hm)).
    rewrite IH. simpl. rewrite <- app_assoc. reflexivity.
Qed.

(** X2.  A client whose messages are all rejected by [parse_message] (no
    JSON, or a value without ["source"] or without ["content"]) keeps its
    connection until it closes it itself: every message is read, each is
    answered by one line of complaint, the loop ends without an exception,
    and neither the agent nor the clock nor the task queue changes. *)
Theorem X2_rejected_messages_are_skipped
    (clock : nat -> Q) (json_loads : string -> option json)
    (client : nat) (messages : list string) (clean_close : bool) (w : world) :
  Forall (fun m => rejected json_loads m = true) messages ->
  let run := connection_handler clock json_loads client messages clean_close in
  eval run w = Ok None
  /\ self (exec run w) = self w
  /\ ticks (exec run w) = ticks w
  /\ tasks (exec run w) = tasks w
  /\ stdout (exec run w)
     = stdout w ++ [PrintNewAgent client]
       ++ map (rejection json_loads) messages
       ++ (if clean_close then [] else [PrintClosed client])
       ++ [PrintDisconnected client].
Proof.
  intros H run. subst run. unfold eval, exec, connection_handler.
  unfold bind, print, modify, try_except.
  rewrite (handle_messages_rejected clock json_loads messages _ H).
  destruct clean_close; simpl; rewrite <- ?app_assoc; repeat split.
Qed.

Lemma X2_rejected_messages_witness :
  Forall (fun m => rejected sample_loads m = true) ["{"; "hello"]
  /\ eval (connection_handler every_second sample_loads 7 ["{"; "hello"] true)
       boot = Ok None.
Proof.
  assert (H : Forall (fun m => rejected sample_loads m = true) ["{"; "hello"]).
  { repeat constructor. }
  split; [exact H|].
  exact (proj1 (X2_rejected_messages_are_skipped every_second sample_loads 7
                  ["{"; "hello"] true boot H)).
Defined.

(** X3.  Only a JSON object can reach the rules.  A message that decodes
    to [null], a boolean or a number raises [TypeError] in [parse_message];
    one that decodes to a string or a list is rejected with a complaint
    unless ["source"] and ["content"] both occur in it (as substrings of
    the string, as items of the list), and then it passes [parse_message]
    and raises [AttributeError] at the first [data.get].  In no case does
    the agent, the clock or the task queue change, and when the turn
    raises, nothing at all was changed or printed. *)
Theorem X3_only_objects_reach_the_rules
    (clock : nat -> Q) (json_loads : string -> option json)
    (message : string) (d : json) (w : world) :
  json_loads message = Some d ->
  (forall kvs, d <> JObj kvs) ->
  let turn := handle_message clock json_loads message in
  eval turn w
  = match d with
    | JStr s =>
        if Py.str_in "source" s && Py.str_in "content" s
        then Raise AttributeError else Ok tt
    | JArr l =>
        if existsb (is_str "source") l && existsb (is_str "content") l
        then Raise AttributeError else Ok tt
    | _ => Raise TypeError
    end
  /\ same_agent w (exec turn w)
  /\ (forall e, eval turn w = Raise e -> exec turn w = w)
  /\ (eval turn w = Ok tt ->
      exec turn w = with_stdout (stdout w ++ [PrintInvalidFormat message]) w).
Proof.
  intros Hd Hobj turn. subst turn.
  unfold eval, exec, handle_message, parse_message. rewrite Hd.
  assert (Hraise : forall (e : exn) (r : result unit),
             r = Raise e ->
             r = Raise e /\ same_agent w w
             /\ (forall e', r = Raise e' -> w = w)
             /\ (r = Ok tt ->
                 w = with_stdout (stdout w ++ [PrintInvalidFormat message]) w)).
  { intros e r ->. split; [reflexivity|]. split; [reflexivity|].
    split; [reflexivity | discriminate]. }
  assert (Hskip : forall r : result unit,
             r = Ok tt ->
             let w' := with_stdout (stdout w ++ [PrintInvalidFormat message]) w in
             r = Ok tt /\ same_agent w w'
             /\ (forall e', r = Raise e' -> w' = w)
             /\ (r = Ok tt -> w' = w')).
  { intros r ->. split; [reflexivity|]. split; [repeat split|].
    split; [discriminate | reflexivity]. }
  destruct d as [|b|q|s|l|kvs]; simpl.
  - apply (Hraise TypeError). reflexivity.
  - apply (Hraise TypeError). reflexivity.
  - apply (Hraise TypeError). reflexivity.
  - destruct (Py.str_in "source" s) eqn:Hs; simpl.
    + destruct (Py.str_in "content" s) eqn:Hc; simpl.
      * destruct s as [|c s]; [discriminate|]. simpl.
        apply (Hraise AttributeError). reflexivity.
      * apply Hskip. reflexivity.
    + apply Hskip. reflexivity.
  - destruct (existsb (is_str "source") l) eqn:Hs; simpl.
    + destruct (existsb (is_str "content") l) eqn:Hc; simpl.
      * destruct l as [|x l]; [discriminate|]. simpl.
        apply (Hraise AttributeError). reflexivity.
      * apply Hskip. reflexivity.
    + apply Hskip. reflexivity.
  - exfalso. exact (Hobj kvs eq_refl).
Qed.

Lemma X3_only_objects_witness :
  sample_loads "null" = Some JNull
  /\ (forall kvs, JNull <> JObj kvs)
  /\ exec (handle_message every_second sample_loads "null") boot = boot.
Proof.
  assert (H1 : sample_loads "null" = Some JNull) by reflexivity.
  assert (H2 : forall kvs, JNull <> JObj kvs) by discriminate.
  split; [exact H1|]. split; [exact H2|].
  destruct (X3_only_objects_reach_the_rules every_second sample_loads "null"
              JNull boot H1 H2) as (He & _ & Hr & _).
  exact (Hr TypeError He).
Defined.

Lemma dict_get_present k kvs d1 d2 :
  existsb (fun kv : string * json => String.eqb k (fst kv)) kvs = true ->
  dict_get k kvs d1 = dict_get k kvs d2.
Proof.
  induction kvs as [|[k' v] kvs IH]; simpl; [discriminate|].
  destruct (String.eqb k k'); [reflexivity | exact IH].
Qed.

Lemma with_stdout_nil w : with_stdout (stdout w ++ []) w = w.
Proof. destruct w. simpl. unfold with_stdout. simpl. rewrite app_nil_r. reflexivity. Qed.

Lemma handle_message_bad_content clock json_loads message kvs w :
  json_loads message = Some (JObj kvs) ->
  py_in "source" (JObj kvs) = Some true ->
  py_in "content" (JObj kvs) = Some true ->
  (forall c, dict_get "content" kvs JNull <> JStr c) ->
  exists e l,
    handle_message clock json_loads message w
    = (Raise e, with_stdout (stdout w ++ l) w).
Proof.
  intros Hd Hs Hc Hstr.
  unfold handle_message, parse_message. rewrite Hd, Hs, Hc.
  assert (Hc' : existsb (fun kv : string * json => String.eqb "content" (fst kv))
                  kvs = true) by (unfold py_in in Hc; congruence).
  pose proof (dict_get_present "content" kvs (JStr "") JNull Hc') as Hget.
  clear Hs Hd Hc.
  destruct kvs as [|kv kvs]; [discriminate|].
  set (d := kv :: kvs) in *.
  unfold bind at 1. unfold ret at 1. cbn [truthy d]. cbv beta iota.
  unfold bind at 1. unfold data_get at 1. unfold ret at 1. cbv beta iota.
  unfold bind at 1. unfold data_get at 1. unfold ret at 1. cbv beta iota.
  unfold apply_rules. rewrite Hget.
  destruct (dict_get "content" d JNull) as [|b|q|s|l|o].
  - exists TypeError, []. rewrite with_stdout_nil. reflexivity.
  - exists TypeError, []. rewrite with_stdout_nil. reflexivity.
  - exists TypeError, []. rewrite with_stdout_nil. reflexivity.
  - exfalso. exact (Hstr s eq_refl).
  - exists AttributeError. eexists. reflexivity.
  - exists TypeError, []. rewrite with_stdout_nil. reflexivity.
Qed.

(** X4.  An object that has both keys but whose ["content"] is not a
    string ends the loop of its connection with an exception: [None], a
    number, a boolean or an object cannot be sliced for the log line, and
    a list has no [strip].  The turn prints at most and changes nothing
    else: the agent, the clock, the task queue and the globals are left as
    they were. *)
Theorem X4_content_must_be_a_string
    (clock : nat -> Q) (json_loads : string -> option json)
    (message : string) (kvs : list (string * json)) (w : world) :
  json_loads message = Some (JObj kvs) ->
  py_in "source" (JObj kvs) = Some true ->
  py_in "content" (JObj kvs) = Some true ->
  (forall c, dict_get "content" kvs JNull <> JStr c) ->
  let turn := handle_message clock json_loads message in
  (exists e, eval turn w = Raise e)
  /\ (exists l, exec turn w = with_stdout (stdout w ++ l) w).
Proof.
  intros Hd Hs Hc Hstr turn. subst turn. unfold eval, exec.
  destruct (handle_message_bad_content clock json_loads message kvs w Hd Hs Hc Hstr)
    as (e & l & ->).
  split; [exists e | exists l]; reflexivity.
Qed.

Lemma X4_content_witness :
  list_loads gesture_list_message
  = Some (JObj [("source", JStr "gesture"); ("content", JArr [])])
  /\ exists e,
       eval (handle_message every_second list_loads gesture_list_message) boot
       = Raise e.
Proof.
  split; [reflexivity|].
  refine (proj1 (X4_content_must_be_a_string every_second list_loads
                   gesture_list_message
                   [("source", JStr "gesture"); ("content", JArr [])] boot
                   eq_refl eq_refl eq_refl _)).
  intros c. discriminate.
Defined.

(** ** Turns that return *)

Section Returns.
Variable I : world -> Prop.

Lemma returns_ret {A} (a : A) : returns I (ret a).
Proof. intros w H. exists a, w. split; [reflexivity | exact H]. Qed.

Lemma returns_bind {A B} (m : M A) (k : A -> M B) :
  returns I m -> (forall a, returns I (k a)) -> returns I (bind m k).
Proof.
  intros Hm Hk w H. destruct (Hm w H) as (a & w1 & E & H1).
  destruct (Hk a w1 H1) as (b & w2 & E2 & H2).
  exists b, w2. split; [|exact H2]. rewrite (bind_ok _ _ _ _ _ E). exact E2.
Qed.

Lemma returns_for_each {A} (l : list A) (body : A -> M unit) :
  (forall x, returns I (body x)) -> returns I (for_each l body).
Proof.
  intros H. induction l as [|x l IH]; simpl.
  - apply returns_ret.
  - apply returns_bind; [apply H | intros _; exact IH].
Qed.

Lemma returns_gets {A} (f : world -> A) : returns I (gets f).
Proof. intros w H. exists (f w), w. split; [reflexivity | exact H]. Qed.

End Returns.

Lemma returns_print l : returns lockstep (print l).
Proof. intros w H. exists tt. eexists. split; [reflexivity | exact H]. Qed.

Lemma returns_append_word clock word : returns lockstep (append_word clock word).
Proof.
  intros w H. destruct (append_word_run clock word w) as (w' & E & _).
  exists tt, w'. split; [exact E|].
  pose proof (append_word_lockstep clock word w) as K.
  rewrite E in K. exact (K H).
Qed.

Lemma returns_get_recent_phrase clock : returns lockstep (_get_recent_phrase clock).
Proof.
  intros w H. destruct (get_recent_phrase_run clock w H) as (w' & E & Hw).
  eexists. exists w'. split; [exact E|].
  exact (lockstep_drop _ w w' _ H Hw).
Qed.

Lemma returns_check_rules clock src p rs :
  returns lockstep (check_rules clock src p rs).
Proof.
  intros w H. pose proof (check_rules_ok clock src p rs w) as E.
  pose proof (check_rules_same_window clock src p rs w) as K.
  destruct (check_rules clock src p rs w) as [r w']. simpl in E, K. subst r.
  exists tt, w'. split; [reflexivity|].
  exact (same_window_lockstep w w' K H).
Qed.

Lemma returns_apply_rules clock kvs s c :
  dict_get "source" kvs JNull = JStr s ->
  dict_get "content" kvs (JStr "") = JStr c ->
  returns lockstep (apply_rules clock kvs).
Proof.
  intros Hs Hc. unfold apply_rules. rewrite Hc, Hs.
  apply returns_bind; [apply returns_print | intros _].
  destruct (_ || _); [apply returns_ret|].
  apply returns_bind.
  - destruct (is_str _ _); [|apply returns_ret].
    apply returns_bind; [|intros _].
    { apply returns_for_each. intros word. apply returns_append_word. }
    apply returns_bind; [apply returns_get_recent_phrase | intros p].
    apply returns_bind; [apply returns_print | intros _]. apply returns_ret.
  - intros p. apply returns_bind; [apply returns_gets | intros rs].
    apply returns_check_rules.
Qed.

Lemma returns_handle_message clock json_loads message :
  well_formed json_loads message || rejected json_loads message = true ->
  returns lockstep (handle_message clock json_loads message).
Proof.
  intros H. apply orb_true_iff in H. destruct H as [H|H].
  - unfold well_formed in H. unfold handle_message, parse_message.
    destruct (json_loads message) as [[| | | | |kvs]|]; try discriminate.
    destruct (py_in "source" (JObj kvs)) as [[]|]; try discriminate.
    destruct (py_in "content" (JObj kvs)) as [[]|] eqn:Hc; try discriminate.
    destruct (dict_get "source" kvs JNull) as [| | |s| |] eqn:Hs; try discriminate.
    destruct (dict_get "content" kvs JNull) as [| | |c| |] eqn:Hg; try discriminate.
    assert (Hc' : existsb (fun kv : string * json => String.eqb "content" (fst kv))
                    kvs = true) by (unfold py_in in Hc; congruence).
    pose proof (dict_get_present "content" kvs (JStr "") JNull Hc') as Hget.
    rewrite Hg in Hget.
    intros w Hw.
    destruct kvs as [|kv kvs]; [discriminate|].
    set (d0 := kv :: kvs) in *.
    unfold bind at 1. unfold ret at 1. cbn [truthy d0]. cbv beta iota.
    unfold bind at 1. unfold data_get at 1. unfold ret at 1. cbv beta iota.
    unfold bind at 1. unfold data_get at 1. unfold ret at 1. cbv beta iota.
    rewrite Hg, Hs.
    unfold bind at 1. unfold slice50 at 1. unfold ret at 1. cbv beta iota.
    unfold bind at 1. unfold print at 1. unfold modify at 1. cbv beta iota.
    apply (returns_apply_rules clock d0 s c Hs Hget). exact Hw.
  - intros w Hw. rewrite (handle_message_rejected clock json_loads message w H).
    exists tt. eexists. split; [reflexivity | exact Hw].
Qed.

(** X5.  In every state the process reaches from one whose two deques are
    paired, the turn of a message returns without an exception whenever the
    message is rejected by [parse_message] or decodes to an object whose
    ["source"] and ["content"] are strings: in particular
    [_clean_old_phrases] never pops an empty deque.  A client that sends
    only such messages is served until it closes the connection itself. *)
Theorem X5_well_formed_events_never_raise
    (clock : nat -> Q) (json_loads : string -> option json) (w0 w : world)
    (client : nat) (messages : list string) (clean_close : bool) :
  lockstep w0 ->
  reachable clock json_loads w0 w ->
  Forall (fun m => well_formed json_loads m || rejected json_loads m = true)
    messages ->
  eval (for_each messages (handle_message clock json_loads)) w = Ok tt
  /\ eval (connection_handler clock json_loads client messages clean_close) w
     = Ok None
  /\ lockstep (exec (connection_handler clock json_loads client messages
                       clean_close) w).
Proof.
  intros H0 Hreach Hall.
  pose proof (reachable_lockstep clock json_loads w0 w H0 Hreach) as Hw.
  assert (Hloop : returns lockstep (for_each messages (handle_message clock json_loads))).
  { clear -Hall. induction Hall as [|m ms Hm _ IH]; simpl.
    - apply returns_ret.
    - apply returns_bind; [|intros _; exact IH].
      apply returns_handle_message, Hm. }
  split.
  { destruct (Hloop w Hw) as ([] & w' & E & _). unfold eval. rewrite E. reflexivity. }
  destruct (Hloop (with_clients (fun s => {[client]} ∪ s)
                     (with_stdout (stdout w ++ [PrintNewAgent client]) w)) Hw)
    as ([] & w2 & E & H2).
  assert (Hrun : exists w',
             connection_handler clock json_loads client messages clean_close w
             = (Ok None, w') /\ lockstep w').
  { unfold connection_handler, bind, print, modify, try_except. rewrite E.
    destruct clean_close; eexists; (split; [reflexivity | exact H2]). }
  destruct Hrun as (w' & Erun & Hlock). unfold eval, exec. rewrite Erun.
  split; [reflexivity | exact Hlock].
Qed.

Lemma X5_well_formed_events_witness :
  lockstep boot
  /\ reachable every_second sample_loads boot boot
  /\ Forall (fun m => well_formed sample_loads m || rejected sample_loads m = true)
       [gesture_next_message; "{"]
  /\ eval (connection_handler every_second sample_loads 7
             [gesture_next_message; "{"] false) boot = Ok None.
Proof.
  assert (H0 : lockstep boot) by (split; simpl; [reflexivity | lia]).
  assert (H1 : reachable every_second sample_loads boot boot) by constructor.
  assert (H2 : Forall (fun m => well_formed sample_loads m
                                || rejected sample_loads m = true)
                 [gesture_next_message; "{"]) by (repeat constructor).
  split; [exact H0|]. split; [exact H1|]. split; [exact H2|].
  exact (proj1 (proj2 (X5_well_formed_events_never_raise every_second sample_loads
                         boot boot 7 [gesture_next_message; "{"] false H0 H1 H2))).
Defined.

(** ** Where tasks come from *)

#[local] Instance dispatched_preorder : PreOrder dispatched.
Proof.
  split.
  - intros w. split; [reflexivity|]. exists []. split; [|constructor].
    symmetry. apply app_nil_r.
  - intros w1 w2 w3 (R1 & n1 & T1 & F1) (R2 & n2 & T2 & F2).
    split; [congruence|]. exists (n1 ++ n2). split.
    + rewrite T2, T1. symmetry. apply app_assoc.
    + apply Forall_app. split; [exact F1|]. rewrite <- R1. exact F2.
Qed.

Lemma same_dispatch_dispatched w w' : same_dispatch w w' -> dispatched w w'.
Proof.
  intros (T & _ & Rl). split; [exact Rl|]. exists []. split; [|constructor].
  rewrite T. symmetry. apply app_nil_r.
Qed.

Lemma check_rule_dispatched clock src p r w :
  r ∈ default [] (rules (self w) !! src) ->
  dispatched w (exec (check_rule clock src p r) w).
Proof.
  intros Hin. destruct (Py.str_in (Py.lower (trigger r)) p) eqn:Hm.
  - destruct (on_cooldown clock (action r) w) eqn:Hc.
    + apply same_dispatch_dispatched, check_rule_cooldown_state; assumption.
    + destruct (check_rule_fire clock src p r w Hm Hc) as (_ & _ & _ & _ & Hr).
      split; [exact Hr|]. eexists. split.
      * apply check_rule_fire_tasks; assumption.
      * constructor; [|constructor]. exists r. simpl. repeat split; assumption.
  - unfold exec. rewrite check_rule_miss by assumption. reflexivity.
Qed.

Lemma check_rules_dispatched clock src p rs w :
  (forall r, r ∈ rs -> r ∈ default [] (rules (self w) !! src)) ->
  dispatched w (exec (check_rules clock src p rs) w).
Proof.
  revert w. induction rs as [|r rs IH]; intros w Hin; [reflexivity|].
  unfold exec. rewrite check_rules_cons.
  assert (H1 : dispatched w (exec (check_rule clock src p r) w)).
  { apply check_rule_dispatched, Hin. left. }
  etransitivity; [exact H1|]. apply IH.
  intros r' Hr'. destruct H1 as [-> _]. apply Hin. right. exact Hr'.
Qed.

Lemma handle_message_dispatched clock json_loads msg :
  within dispatched (handle_message clock json_loads msg).
Proof.
  apply frame_message.
  - typeclasses eauto.
  - intros w w' H. apply same_dispatch_dispatched, H.
  - intros l w. apply same_dispatch_dispatched. repeat split.
  - intros src p w. unfold bind, gets.
    apply (check_rules_dispatched clock src p _ w). intros r Hr. exact Hr.
Qed.

Lemma same_agent_dispatched w w' : same_agent w w' -> dispatched w w'.
Proof. intros H. apply same_dispatch_dispatched, same_agent_same_dispatch, H. Qed.

Lemma reachable_dispatched clock json_loads w0 w :
  reachable clock json_loads w0 w -> dispatched w0 w.
Proof.
  induction 1 as [|w w' _ IH Hstep]; [reflexivity|].
  etransitivity; [exact IH|].
  destruct Hstep as [msg w1 | ok w1 | ok w1].
  - apply handle_message_dispatched.
  - apply same_agent_dispatched, run_task_same_agent.
  - apply same_agent_dispatched, connect_same_agent.
Qed.

Lemma table_rules src r :
  r ∈ default [] (_initialize_rules !! src) ->
  (src = "audio_stt"
   /\ r ∈ [ {| trigger := "open presentation"; action := "OPEN_PRESENTATION";
              params := [] |};
            {| trigger := "next"; action := "NEXT_SLIDE"; params := [] |};
            {| trigger := "previous"; action := "PREVIOUS_SLIDE"; params := [] |} ])
  \/ (src = "vision_vlm"
      /\ r ∈ [ {| trigger := "cardboard"; action := "ZOOM_ON_OBJECT";
                 params := [("target", "cardboard")] |};
               {| trigger := "person"; action := "ZOOM_ON_OBJECT";
                 params := [("target", "person")] |};
               {| trigger := "bottle"; action := "ZOOM_ON_OBJECT";
                 params := [("target", "bottle")] |} ])
  \/ (src = "gesture"
      /\ r ∈ [ {| trigger := "next"; action := "NEXT_SLIDE"; params := [] |};
               {| trigger := "previous"; action := "PREVIOUS_SLIDE";
                  params := [] |} ]).
Proof.
  unfold _initialize_rules. intros H.
  destruct (decide (src = "audio_stt")) as [->|N1].
  { rewrite lookup_insert_eq in H. left. split; [reflexivity | exact H]. }
  rewrite lookup_insert_ne in H by congruence.
  destruct (decide (src = "vision_vlm")) as [->|N2].
  { rewrite lookup_insert_eq in H. right. left. split; [reflexivity | exact H]. }
  rewrite lookup_insert_ne in H by congruence.
  destruct (decide (src = "gesture")) as [->|N3].
  { rewrite lookup_insert_eq in H. right. right. split; [reflexivity | exact H]. }
  rewrite lookup_insert_ne in H by congruence.
  rewrite lookup_empty in H. simpl in H. inversion H.
Qed.

(** X6.  Over any run of the process the rule table stays the one the run
    started with, the task queue only grows at its end, and every task
    created during the run was created for a rule the table lists under
    the source of the task: it carries the action and the parameters of
    that rule, and its content contains the lowercased trigger.  With the
    table of [_initialize_rules], a task is therefore one of eight kinds,
    and no task is ever created for GO_TO_SLIDE, although
    [_delegate_action_async] lists it among the actions it forwards. *)
Theorem X6_every_task_stems_from_a_rule
    (clock : nat -> Q) (json_loads : string -> option json) (w0 w : world) :
  reachable clock json_loads w0 w ->
  let new := drop (length (tasks w0)) (tasks w) in
  rules (self w) = rules (self w0)
  /\ tasks w = tasks w0 ++ new
  /\ Forall (from_rule (rules (self w0))) new
  /\ (rules (self w0) = _initialize_rules ->
      forall t, t ∈ new ->
        (t_source t, t_action t, t_params t)
        ∈ [ ("audio_stt", "OPEN_PRESENTATION", []);
            ("audio_stt", "NEXT_SLIDE", []);
            ("audio_stt", "PREVIOUS_SLIDE", []);
            ("vision_vlm", "ZOOM_ON_OBJECT", [("target", "cardboard")]);
            ("vision_vlm", "ZOOM_ON_OBJECT", [("target", "person")]);
            ("vision_vlm", "ZOOM_ON_OBJECT", [("target", "bottle")]);
            ("gesture", "NEXT_SLIDE", []);
            ("gesture", "PREVIOUS_SLIDE", []) ]
        /\ t_action t <> "GO_TO_SLIDE").
Proof.
  intros Hreach new.
  destruct (reachable_dispatched clock json_loads w0 w Hreach)
    as (Hr & n & Ht & Hf).
  assert (Hnew : new = n).
  { subst new. rewrite Ht, drop_app_length. reflexivity. }
  rewrite Hnew. split; [exact Hr|]. split; [exact Ht|]. split; [exact Hf|].
  intros Htable t Hin. rewrite Forall_forall in Hf.
  destruct (Hf t Hin) as (r & Hrin & Ha & Hp & _).
  rewrite Htable in Hrin. rewrite Ha, Hp.
  destruct (table_rules _ r Hrin) as [[-> H]|[[-> H]|[-> H]]];
    repeat (apply elem_of_cons in H; destruct H as [->|H]);
    try (apply elem_of_nil in H; contradiction);
    simpl; (split; [|discriminate]).
  - apply list_elem_of_here.
  - do 1 apply list_elem_of_further. apply list_elem_of_here.
  - do 2 apply list_elem_of_further. apply list_elem_of_here.
  - do 3 apply list_elem_of_further. apply list_elem_of_here.
  - do 4 apply list_elem_of_further. apply list_elem_of_here.
  - do 5 apply list_elem_of_further. apply list_elem_of_here.
  - do 6 apply list_elem_of_further. apply list_elem_of_here.
  - do 7 apply list_elem_of_further. apply list_elem_of_here.
Qed.

Lemma X6_every_task_witness :
  reachable every_second sample_loads boot after_third_next
  /\ Forall (from_rule _initialize_rules) (tasks after_third_next).
Proof.
  assert (H : reachable every_second sample_loads boot after_third_next).
  { unfold after_third_next, after_second_next, after_first_next.
    repeat (eapply reachable_step; [|apply step_message]). apply reachable_start. }
  split; [exact H|].
  exact (proj1 (proj2 (proj2 (X6_every_task_stems_from_a_rule every_second
                                sample_loads boot after_third_next H)))).
Defined.

(** ** What the cooldown registry holds *)

Lemma last_dispatch_snoc clock a l t :
  last_dispatch clock a (l ++ [t])
  = if String.eqb (t_action t) a then Some (created_at clock t)
    else last_dispatch clock a l.
Proof.
  induction l as [|t' l IH]; simpl.
  - reflexivity.
  - rewrite IH. destruct (String.eqb (t_action t) a); reflexivity.
Qed.

Lemma last_dispatch_None clock a l :
  last_dispatch clock a l = None <-> forall t, t ∈ l -> t_action t <> a.
Proof.
  induction l as [|t' l IH]; simpl.
  - split; [intros _ t H; inversion H | reflexivity].
  - destruct (last_dispatch clock a l) as [T|].
    + split; [discriminate|]. intros H. exfalso.
      assert (Hl : forall t, t ∈ l -> t_action t <> a).
      { intros t Ht. apply H. right. exact Ht. }
      apply IH in Hl. discriminate.
    + destruct (String.eqb_spec (t_action t') a) as [E|N].
      * split; [discriminate|]. intros H. exfalso. apply (H t'); [left | exact E].
      * split; [|reflexivity]. intros _ t Ht.
        apply elem_of_cons in Ht. destruct Ht as [->|Ht]; [exact N|].
        apply IH; [reflexivity | exact Ht].
Qed.

Lemma last_dispatch_Some clock a l T :
  last_dispatch clock a l = Some T ->
  exists t, t ∈ l /\ t_action t = a /\ created_at clock t = T.
Proof.
  induction l as [|t' l IH]; simpl; [discriminate|].
  destruct (last_dispatch clock a l) as [T'|].
  - intros H. destruct (IH H) as (t & Hin & Ht). exists t. split; [right|]; assumption.
  - destruct (String.eqb_spec (t_action t') a) as [E|N]; [|discriminate].
    intros [= <-]. exists t'. split; [left | split; [exact E | reflexivity]].
Qed.

Lemma same_dispatch_registry_exact clock w w' :
  same_dispatch w w' -> keeps (registry_exact clock) w w'.
Proof. intros (T & Rg & _) H a. rewrite Rg, T. apply H. Qed.

Lemma check_rule_registry_exact clock src p r :
  within (keeps (registry_exact clock)) (check_rule clock src p r).
Proof.
  intros w H. destruct (Py.str_in (Py.lower (trigger r)) p) eqn:Hm.
  - destruct (on_cooldown clock (action r) w) eqn:Hc.
    + apply (same_dispatch_registry_exact clock w); [|exact H].
      apply check_rule_cooldown_state; assumption.
    + intros a.
      pose proof (check_rule_fire_registry clock src p r w Hm Hc) as Hreg.
      pose proof (check_rule_fire_tasks clock src p r w Hm Hc) as Htasks.
      unfold exec in Hreg, Htasks. rewrite Hreg, Htasks, last_dispatch_snoc.
      simpl. destruct (String.eqb_spec (action r) a) as [->|N].
      * rewrite lookup_insert_eq. reflexivity.
      * rewrite lookup_insert_ne by exact N. apply H.
  - rewrite check_rule_miss by assumption. exact H.
Qed.

Lemma reachable_registry_exact clock json_loads w0 w :
  registry_exact clock w0 -> reachable clock json_loads w0 w ->
  registry_exact clock w.
Proof.
  intros H0 Hreach. revert H0.
  apply (within_reachable clock json_loads (keeps (registry_exact clock)));
    [| | | |exact Hreach].
  - intros v v' Hv. apply same_dispatch_registry_exact, same_agent_same_dispatch, Hv.
  - intros word v. apply same_dispatch_registry_exact, append_word_same_dispatch.
  - intros v. apply same_dispatch_registry_exact, clean_same_dispatch.
  - intros src p r. apply check_rule_registry_exact.
Qed.

(** X7.  Start the process with no task and an empty registry.  In every
    state it reaches, [triggered_phrases] holds for each action exactly the
    creation time of the latest task for that action, and no entry for an
    action that has no task: entries are only ever added or overwritten by
    a dispatch, never removed or refreshed otherwise.  So the answer of
    [_was_recently_triggered] is decided by the task queue and the reading
    of the clock, and with the table of [_initialize_rules] the registry
    never has other keys than OPEN_PRESENTATION, NEXT_SLIDE, PREVIOUS_SLIDE
    and ZOOM_ON_OBJECT. *)
Theorem X7_registry_mirrors_the_latest_dispatch
    (clock : nat -> Q) (json_loads : string -> option json) (w0 w : world) :
  tasks w0 = [] ->
  triggered_phrases (self w0) = ∅ ->
  reachable clock json_loads w0 w ->
  (forall a, triggered_phrases (self w) !! a = last_dispatch clock a (tasks w))
  /\ (forall a, triggered_phrases (self w) !! a = None
                <-> forall t, t ∈ tasks w -> t_action t <> a)
  /\ (forall a, eval (_was_recently_triggered clock a) w
                = Ok (match last_dispatch clock a (tasks w) with
                      | Some T => QMicromega.Qlt_bool (clock (ticks w) - T) cooldown
                      | None => false
                      end))
  /\ (rules (self w0) = _initialize_rules ->
      forall a, is_Some (triggered_phrases (self w) !! a) ->
        a ∈ ["OPEN_PRESENTATION"; "NEXT_SLIDE"; "PREVIOUS_SLIDE";
             "ZOOM_ON_OBJECT"]).
Proof.
  intros Ht0 Hr0 Hreach.
  assert (H0 : registry_exact clock w0).
  { intros a. rewrite Hr0, Ht0. apply lookup_empty. }
  pose proof (reachable_registry_exact clock json_loads w0 w H0 Hreach) as H.
  split; [exact H|]. split; [|split].
  - intros a. rewrite H. apply last_dispatch_None.
  - intros a. unfold eval. rewrite was_recently_triggered_run. simpl.
    unfold on_cooldown. rewrite H. reflexivity.
  - intros Htable a [T HT].
    destruct (last_dispatch clock a (tasks w)) as [T'|] eqn:Hl;
      [|rewrite H, Hl in HT; discriminate].
    destruct (last_dispatch_Some clock a (tasks w) T' Hl) as (t & Hin & <- & _).
    destruct (reachable_dispatched clock json_loads w0 w Hreach)
      as (_ & n & Htk & Hf).
    rewrite Ht0 in Htk. simpl in Htk. subst n. rewrite Forall_forall in Hf.
    destruct (Hf t Hin) as (r & Hrin & -> & _). rewrite Htable in Hrin.
    destruct (table_rules _ r Hrin) as [[_ Hx]|[[_ Hx]|[_ Hx]]];
      repeat (apply elem_of_cons in Hx; destruct Hx as [->|Hx]);
      try (apply elem_of_nil in Hx; contradiction); simpl.
    + apply list_elem_of_here.
    + do 1 apply list_elem_of_further. apply list_elem_of_here.
    + do 2 apply list_elem_of_further. apply list_elem_of_here.
    + do 3 apply list_elem_of_further. apply list_elem_of_here.
    + do 3 apply list_elem_of_further. apply list_elem_of_here.
    + do 3 apply list_elem_of_further. apply list_elem_of_here.
    + do 1 apply list_elem_of_further. apply list_elem_of_here.
    + do 2 apply list_elem_of_further. apply list_elem_of_here.
Qed.

Lemma X7_registry_witness :
  tasks boot = []
  /\ triggered_phrases (self boot) = ∅
  /\ reachable every_second sample_loads boot after_third_next
  /\ triggered_phrases (self after_third_next) !! "NEXT_SLIDE"
     = last_dispatch every_second "NEXT_SLIDE" (tasks after_third_next).
Proof.
  assert (H : reachable every_second sample_loads boot after_third_next).
  { unfold after_third_next, after_second_next, after_first_next.
    repeat (eapply reachable_step; [|apply step_message]). apply reachable_start. }
  split; [reflexivity|]. split; [reflexivity|]. split; [exact H|].
  exact (proj1 (X7_registry_mirrors_the_latest_dispatch every_second sample_loads
                  boot after_third_next eq_refl eq_refl H) "NEXT_SLIDE").
Defined.

(** ** What reaches the PDF server *)

Lemma due_grow w w' new :
  (tasks_run w <= length (tasks w))%nat ->
  tasks w' = tasks w ++ new -> tasks_run w' = tasks_run w ->
  due w' = due w.
Proof.
  intros Hle Ht Hr. unfold due. rewrite Ht, Hr, take_app_le by exact Hle.
  reflexivity.
Qed.

Lemma due_run w w' t :
  tasks w !! tasks_run w = Some t ->
  tasks w' = tasks w -> tasks_run w' = S (tasks_run w) ->
  due w' = due w ++ (if str_in_list (t_action t) slide_actions
                     then [command_of t] else []).
Proof.
  intros Hl Ht Hr. unfold due. rewrite Ht, Hr.
  rewrite (take_S_r _ _ _ Hl), List.filter_app, map_app. f_equal.
  cbn [List.filter].
  destruct (str_in_list (t_action t) slide_actions); reflexivity.
Qed.

(** Running the next task: it is marked as run, and its command is sent
    exactly when its action is a slide action, there is a connection, and
    the send succeeds. *)
Lemma run_task_run send_ok w t :
  tasks w !! tasks_run w = Some t ->
  let w' := exec (run_task send_ok) w in
  tasks w' = tasks w
  /\ tasks_run w' = S (tasks_run w)
  /\ connects w' = connects w
  /\ wire w'
     = wire w ++ (if str_in_list (t_action t) slide_actions
                     && bool_decide (is_Some (PDF_SERVER_CONNECTION w)) && send_ok
                  then [command_of t] else [])
  /\ PDF_SERVER_CONNECTION w'
     = (if str_in_list (t_action t) slide_actions && negb send_ok
        then None else PDF_SERVER_CONNECTION w).
Proof.
  intros Hl w'. subst w'.
  unfold exec, run_task, bind, gets. cbv beta iota. rewrite Hl.
  unfold modify. cbv beta iota.
  unfold _delegate_action_async, bind. rewrite announce_run.
  destruct (str_in_list (t_action t) slide_actions).
  - unfold send_to_pdf_server, bind, gets. cbv beta iota.
    cbn [PDF_SERVER_CONNECTION with_stdout with_tasks_run].
    destruct (PDF_SERVER_CONNECTION w) as [k|] eqn:Hk.
    + rewrite bool_decide_eq_true_2 by (eexists; reflexivity).
      destruct send_ok; cbn; repeat split; rewrite ?app_nil_r; try reflexivity.
      exact Hk.
    + rewrite bool_decide_eq_false_2 by (intros [? ?]; discriminate).
      destruct send_ok; cbn; repeat split; rewrite ?app_nil_r; try reflexivity;
        exact Hk.
  - cbn. repeat split; rewrite ?app_nil_r; reflexivity.
Qed.

Lemma run_task_idle send_ok w :
  tasks w !! tasks_run w = None -> exec (run_task send_ok) w = w.
Proof. intros Hl. unfold exec, run_task, bind, gets. simpl. rewrite Hl. reflexivity. Qed.

Lemma handle_message_wire_ok clock json_loads msg :
  within (keeps wire_ok) (handle_message clock json_loads msg).
Proof.
  intros w [Hle Hsub].
  destruct (handle_message_dispatched clock json_loads msg w) as (_ & new & Ht & _).
  destruct (handle_message_same_globals clock json_loads msg w)
    as (_ & _ & Hr & Hw & _).
  split.
  - rewrite Hr, Ht, length_app. lia.
  - rewrite Hw, (due_grow w _ new Hle Ht Hr). exact Hsub.
Qed.

Lemma run_task_wire_ok send_ok : within (keeps wire_ok) (run_task send_ok).
Proof.
  intros w [Hle Hsub].
  destruct (tasks w !! tasks_run w) as [t|] eqn:Hl.
  - destruct (run_task_run send_ok w t Hl) as (Ht & Hr & _ & Hw & _).
    fold (exec (run_task send_ok) w). split.
    + rewrite Hr, Ht. apply lookup_lt_Some in Hl. lia.
    + rewrite Hw, (due_run w _ t Hl Ht Hr).
      apply sublist_app; [exact Hsub|].
      destruct (str_in_list (t_action t) slide_actions); simpl; [|reflexivity].
      destruct (bool_decide _ && send_ok); [reflexivity | apply sublist_nil_l].
  - fold (exec (run_task send_ok) w). rewrite run_task_idle by exact Hl.
    split; assumption.
Qed.

Lemma connect_wire_ok connect_ok :
  within (keeps wire_ok) (connect_to_pdf_server connect_ok).
Proof. intros w H. destruct connect_ok; exact H. Qed.

Lemma reachable_wire_ok clock json_loads w0 w :
  wire_ok w0 -> reachable clock json_loads w0 w -> wire_ok w.
Proof.
  intros H0 Hreach. induction Hreach as [|w w' _ IH Hstep]; [exact H0|].
  destruct Hstep as [msg w1 | ok w1 | ok w1].
  - apply handle_message_wire_ok, IH.
  - apply run_task_wire_ok, IH.
  - apply connect_wire_ok, IH.
Qed.

Lemma due_elem c w :
  c ∈ due w ->
  exists t, t ∈ tasks w /\ c = command_of t
            /\ str_in_list (t_action t) slide_actions = true.
Proof.
  unfold due. intros H. apply list_elem_of_fmap in H. destruct H as (t & -> & H).
  apply list_elem_of_In, List.filter_In in H. destruct H as [H Hs].
  exists t. split; [|split; [reflexivity | exact Hs]].
  apply list_elem_of_In in H.
  rewrite <- (take_drop (tasks_run w) (tasks w)). apply elem_of_app. left. exact H.
Qed.

(** X8.  Start the process with no task, none run and nothing sent.  In
    every state it reaches, the event loop is not ahead of the queue, and
    the messages sent to the PDF server are, in the order they were sent,
    part of the commands of the tasks that have run and whose action is a
    slide action: no command is sent twice, none out of order, none for a
    task that did not run.  With the table of [_initialize_rules], every
    message ever sent is OPEN_PRESENTATION, NEXT_SLIDE or PREVIOUS_SLIDE
    with empty parameters. *)
Theorem X8_the_wire_follows_the_queue
    (clock : nat -> Q) (json_loads : string -> option json) (w0 w : world) :
  tasks w0 = [] -> tasks_run w0 = 0%nat -> wire w0 = [] ->
  reachable clock json_loads w0 w ->
  (tasks_run w <= length (tasks w))%nat
  /\ wire w `sublist_of`
       map command_of
         (List.filter (fun t => str_in_list (t_action t) slide_actions)
            (take (tasks_run w) (tasks w)))
  /\ (length (wire w) <= tasks_run w)%nat
  /\ (rules (self w0) = _initialize_rules ->
      forall c, c ∈ wire w ->
        c_params c = []
        /\ c_action c ∈ ["OPEN_PRESENTATION"; "NEXT_SLIDE"; "PREVIOUS_SLIDE"]).
Proof.
  intros Ht0 Hr0 Hw0 Hreach.
  assert (H0 : wire_ok w0).
  { split; [rewrite Hr0; lia|]. rewrite Hw0. apply sublist_nil_l. }
  destruct (reachable_wire_ok clock json_loads w0 w H0 Hreach) as [Hle Hsub].
  split; [exact Hle|]. split; [exact Hsub|]. split.
  - apply sublist_length in Hsub. unfold due in Hsub.
    rewrite length_map in Hsub.
    pose proof (List.filter_length_le
                  (fun t => str_in_list (t_action t) slide_actions)
                  (take (tasks_run w) (tasks w))) as Hf.
    rewrite length_take in Hf. lia.
  - intros Htable c Hc.
    destruct (due_elem c w (elem_of_sublist _ _ _ Hc Hsub)) as (t & Hin & -> & Hs).
    destruct (reachable_dispatched clock json_loads w0 w Hreach)
      as (_ & n & Htk & Hf).
    rewrite Ht0 in Htk. simpl in Htk. subst n. rewrite Forall_forall in Hf.
    destruct (Hf t Hin) as (r & Hrin & Ha & Hp & _). rewrite Htable in Hrin.
    unfold command_of. cbn [c_action c_params]. rewrite Ha, Hp. rewrite Ha in Hs.
    destruct (table_rules _ r Hrin) as [[_ Hx]|[[_ Hx]|[_ Hx]]];
      repeat (apply elem_of_cons in Hx; destruct Hx as [->|Hx]);
      try (apply elem_of_nil in Hx; contradiction);
      try discriminate Hs; cbn [action params]; (split; [reflexivity|]).
    + apply list_elem_of_here.
    + do 1 apply list_elem_of_further. apply list_elem_of_here.
    + do 2 apply list_elem_of_further. apply list_elem_of_here.
    + do 1 apply list_elem_of_further. apply list_elem_of_here.
    + do 2 apply list_elem_of_further. apply list_elem_of_here.
Qed.

Lemma X8_the_wire_witness :
  tasks connected = []
  /\ tasks_run connected = 0%nat
  /\ wire connected = []
  /\ reachable every_second sample_loads connected
       (exec (run_task true)
          (exec (handle_message every_second sample_loads gesture_next_message)
             connected))
  /\ forall c,
       c ∈ wire (exec (run_task true)
                   (exec (handle_message every_second sample_loads
                            gesture_next_message) connected)) ->
       c_params c = []
       /\ c_action c ∈ ["OPEN_PRESENTATION"; "NEXT_SLIDE"; "PREVIOUS_SLIDE"].
Proof.
  assert (H : reachable every_second sample_loads connected
                (exec (run_task true)
                   (exec (handle_message every_second sample_loads
                            gesture_next_message) connected))).
  { eapply reachable_step; [|apply step_task].
    eapply reachable_step; [apply reachable_start | apply step_message]. }
  split; [reflexivity|]. split; [reflexivity|]. split; [reflexivity|].
  split; [exact H|].
  exact (proj2 (proj2 (proj2 (X8_the_wire_follows_the_queue every_second
                                sample_loads connected _ eq_refl eq_refl eq_refl
                                H))) eq_refl).
Defined.

(** ** The connection to the PDF server, once [main] serves *)

Lemma serving_connection clock json_loads w w' :
  serving clock json_loads w w' ->
  connects w' = connects w
  /\ (PDF_SERVER_CONNECTION w = None ->
      PDF_SERVER_CONNECTION w' = None /\ wire w' = wire w).
Proof.
  induction 1 as [w0 | msg w0 w1 _ [IHc IHn] | ok w0 w1 _ [IHc IHn]].
  - split; [reflexivity|]. intros H. split; [exact H | reflexivity].
  - destruct (handle_message_same_globals clock json_loads msg w1)
      as (_ & Hp & _ & Hw & Hc).
    fold (exec (handle_message clock json_loads msg) w1) in Hp, Hw, Hc.
    split; [congruence|]. intros H. destruct (IHn H) as [H1 H2].
    split; congruence.
  - destruct (tasks w1 !! tasks_run w1) as [t|] eqn:Hl.
    + destruct (run_task_run ok w1 t Hl) as (_ & _ & Hc & Hw & Hp).
      split; [congruence|]. intros H. destruct (IHn H) as [H1 H2].
      rewrite Hp, Hw, H1.
      split;
        [destruct (str_in_list (t_action t) slide_actions && negb ok); reflexivity|].
      rewrite bool_decide_eq_false_2 by (intros [? ?]; discriminate).
      rewrite andb_false_r. simpl. rewrite app_nil_r. exact H2.
    + rewrite run_task_idle by exact Hl. split; assumption.
Qed.

(** X9.  While [main] serves, [websockets.connect] is never called again.
    So a connection to the PDF server that is missing stays missing, and
    nothing more is sent, whatever messages arrive and tasks run: this is
    the case from the start when the connect attempt of [main] failed, and
    from the first send that fails, which costs the connection as well as
    the command. *)
Theorem X9_a_lost_connection_is_never_restored
    (clock : nat -> Q) (json_loads : string -> option json) (w w' : world) :
  serving clock json_loads w w' ->
  connects w' = connects w
  /\ (PDF_SERVER_CONNECTION w = None ->
      PDF_SERVER_CONNECTION w' = None /\ wire w' = wire w)
  /\ (forall (t : task) (w'' : world),
        tasks w' !! tasks_run w' = Some t ->
        str_in_list (t_action t) slide_actions = true ->
        serving clock json_loads (exec (run_task false) w') w'' ->
        PDF_SERVER_CONNECTION w'' = None /\ wire w'' = wire w')
  /\ (forall w0 : world,
        w = exec (connect_to_pdf_server false) w0 ->
        PDF_SERVER_CONNECTION w' = None /\ wire w' = wire w0
        /\ connects w' = S (connects w0)).
Proof.
  intros Hs. destruct (serving_connection clock json_loads w w' Hs) as [Hc Hn].
  split; [exact Hc|]. split; [exact Hn|]. split.
  - intros t w'' Hl Hslide Hs'.
    destruct (run_task_run false w' t Hl) as (_ & _ & _ & Hw & Hp).
    rewrite Hslide in Hp, Hw. simpl in Hp. rewrite andb_false_r in Hw.
    rewrite app_nil_r in Hw.
    destruct (serving_connection clock json_loads _ w'' Hs') as [_ Hn'].
    destruct (Hn' Hp) as [H1 H2]. split; [exact H1 | congruence].
  - intros w0 ->. destruct (Hn eq_refl) as [H1 H2].
    split; [exact H1|]. split; [exact H2 | exact Hc].
Qed.

Lemma X9_a_lost_connection_witness :
  serving every_second sample_loads boot
    (exec (run_task true) after_first_next)
  /\ PDF_SERVER_CONNECTION boot = None
  /\ wire (exec (run_task true) after_first_next) = [].
Proof.
  assert (H : serving every_second sample_loads boot
                (exec (run_task true) after_first_next)).
  { apply serving_task.
    apply (serving_message every_second sample_loads gesture_next_message).
    apply serving_start. }
  split; [exact H|]. split; [reflexivity|].
  exact (proj2 (proj1 (proj2 (X9_a_lost_connection_is_never_restored every_second
                                sample_loads boot _ H)) eq_refl)).
Defined.

(** ** How many tasks a stretch of time can create *)











(** ** A trigger word that stays in the window *)

Lemma pause_clock_monotone : monotone pause_clock.
Proof.
  intros i j Hij. unfold pause_clock.
  destruct (Nat.ltb_spec i 4), (Nat.ltb_spec j 4); try lra. lia.
Qed.

(** X11.  A trigger word dispatches again for as long as it stays in the
    phrase window and the cooldown of its action has run out.  Let "next"
    be heard on an empty window while NEXT_SLIDE is not suppressed: a task
    for NEXT_SLIDE is created.  Let one more word be heard that completes
    no other trigger, its phrase being read at most 3 seconds after "next"
    was stamped and NEXT_SLIDE being checked at least 2 seconds after it
    was marked: the phrase read is "next" followed by that word, and a
    second task for NEXT_SLIDE is created, although "next" was heard once. *)
Theorem X11_a_word_in_the_window_fires_again
    (clock : nat -> Q) (w : world) (word lw : string) :
  monotone clock ->
  rules (self w) = _initialize_rules ->
  phrase_buffer (self w) = [] ->
  phrase_timestamps (self w) = [] ->
  (forall T, triggered_phrases (self w) !! "NEXT_SLIDE" = Some T ->
             ~ (clock (ticks w + 2)%nat - T < 2)%Q) ->
  Py.strip word <> "" ->
  Py.split (Py.lower (Py.strip word)) = [lw] ->
  let phrase := Py.lower (Py.join " " ["next"; lw]) in
  Py.str_in "open presentation" phrase = false ->
  Py.str_in "previous" phrase = false ->
  (clock (ticks w + 5)%nat - clock (ticks w) <= 3)%Q ->
  (2 <= clock (ticks w + 6)%nat - clock (ticks w + 3)%nat)%Q ->
  let w1 := exec (apply_rules clock (event "audio_stt" "next")) w in
  let w2 := exec (apply_rules clock (event "audio_stt" word)) w1 in
  tasks w1
  = tasks w ++ [ {| t_source := "audio_stt"; t_action := "NEXT_SLIDE";
                    t_params := []; t_content := "next";
                    t_tick := ticks w + 4 |} ]
  /\ phrase_buffer (self w2) = ["next"; lw]
  /\ tasks w2
     = tasks w1 ++ [ {| t_source := "audio_stt"; t_action := "NEXT_SLIDE";
                        t_params := []; t_content := phrase;
                        t_tick := ticks w + 8 |} ].
Proof.
  intros Hmono Hrules Hb Hs Hfree Hne Hsplit phrase Hopen Hprev Hnear Hover w1 w2.
  replace (ticks w + 2)%nat with (S (S (ticks w))) in * by lia.
  replace (ticks w + 3)%nat with (S (S (S (ticks w)))) in * by lia.
  replace (ticks w + 4)%nat with (S (S (S (S (ticks w))))) in * by lia.
  replace (ticks w + 5)%nat with (S (S (S (S (S (ticks w)))))) in * by lia.
  replace (ticks w + 6)%nat with (S (S (S (S (S (S (ticks w))))))) in * by lia.
  replace (ticks w + 8)%nat
    with (S (S (S (S (S (S (S (S (ticks w))))))))) in * by lia.
  (* the first word *)
  destruct (audio_one_word clock "next" "next" w [] [] Hrules Hb Hs eq_refl
              ltac:(unfold maxlen; simpl; lia) ltac:(discriminate) eq_refl)
    as (wa & Ea & Hba & Hsa & Hta & Htaska & Hrega & Hrulesa).
  rewrite Hrules in Hrulesa.
  assert (Hfirst : (clock (S (ticks w)) - clock (ticks w) <= phrase_window)%Q).
  { pose proof (Hmono (S (ticks w)) (S (S (S (S (S (ticks w)))))) ltac:(lia)).
    unfold phrase_window. lra. }
  cbn [app] in Ea, Hba, Hsa.
  rewrite (stale_head _ _ _ Hfirst) in Ea, Hba, Hsa.
  cbn [drop] in Ea, Hba, Hsa.
  change (Py.lower (Py.join " " ["next"])) with "next" in Ea.
  assert (Hcda : on_cooldown clock "NEXT_SLIDE" wa = false).
  { unfold on_cooldown. rewrite Hrega, Hta.
    destruct (triggered_phrases (self w) !! "NEXT_SLIDE") as [T|] eqn:ET;
      [|reflexivity].
    destruct (QMicromega.Qlt_bool _ _) eqn:E; [|reflexivity].
    apply QMicromega.Qlt_bool_iff in E. exfalso. exact (Hfree T eq_refl E). }
  set (wf := exec (check_rule clock "audio_stt" "next" next_rule) wa).
  assert (Hw1 : w1 = wf).
  { unfold w1, exec at 1. rewrite Ea, check_rules_cons. unfold exec at 1.
    rewrite (check_rule_miss clock "audio_stt" "next" open_presentation_rule wa)
      by reflexivity.
    cbn [snd]. rewrite check_rules_cons. fold wf.
    rewrite check_rules_all_miss; [reflexivity|]. repeat constructor. }
  clearbody w1. subst w1. clear Ea.
  destruct (check_rule_fire clock "audio_stt" "next" next_rule wa eq_refl Hcda)
    as (_ & Htf & Hbf & Hsf & Hrulesf).
  fold wf in Htf, Hbf, Hsf, Hrulesf.
  pose proof (check_rule_fire_tasks clock "audio_stt" "next" next_rule wa
                eq_refl Hcda) as Htaskf.
  pose proof (check_rule_fire_registry clock "audio_stt" "next" next_rule wa
                eq_refl Hcda) as Hregf.
  fold wf in Htaskf, Hregf.
  rewrite Hta in Htf, Htaskf, Hregf. rewrite Htaska in Htaskf.
  rewrite Hba in Hbf. rewrite Hsa in Hsf. rewrite Hrulesa in Hrulesf.
  split; [exact Htaskf|].
  (* the second word *)
  destruct (audio_one_word clock word lw wf ["next"] [clock (ticks w)]
              Hrulesf Hbf Hsf eq_refl ltac:(unfold maxlen; simpl; lia) Hne Hsplit)
    as (wb & Eb & Hbb & Hsb & Htb & Htaskb & Hregb & Hrulesb).
  rewrite Htf in Eb, Hbb, Hsb, Htb.
  change ([clock (ticks w)] ++ [clock (S (S (S (S (ticks w)))))])
    with [clock (ticks w); clock (S (S (S (S (ticks w)))))] in Eb, Hbb, Hsb.
  rewrite (stale_head _ _ _ Hnear) in Eb, Hbb, Hsb.
  cbn [drop app] in Eb, Hbb, Hsb.
  fold phrase in Eb.
  assert (Hnext : Py.str_in (Py.lower (trigger next_rule)) phrase = true).
  { reflexivity. }
  assert (Hcdb : on_cooldown clock "NEXT_SLIDE" wb = false).
  { unfold on_cooldown. rewrite Hregb, Hregf, Htb.
    change (action next_rule) with "NEXT_SLIDE". rewrite lookup_insert_eq.
    destruct (QMicromega.Qlt_bool _ _) eqn:E; [|reflexivity].
    apply QMicromega.Qlt_bool_iff in E. unfold cooldown in E. lra. }
  set (wg := exec (check_rule clock "audio_stt" phrase next_rule) wb).
  assert (Hw2 : w2 = wg).
  { unfold w2, exec at 1. rewrite Eb, check_rules_cons. unfold exec at 1.
    rewrite (check_rule_miss clock "audio_stt" phrase open_presentation_rule wb)
      by exact Hopen.
    cbn [snd]. rewrite check_rules_cons. fold wg.
    rewrite check_rules_all_miss; [reflexivity|]. repeat constructor. exact Hprev. }
  clearbody w2. subst w2. clear Eb.
  destruct (check_rule_fire clock "audio_stt" phrase next_rule wb Hnext Hcdb)
    as (_ & _ & Hbg & _).
  fold wg in Hbg. rewrite Hbg, Hbb. split; [reflexivity|].
  pose proof (check_rule_fire_tasks clock "audio_stt" phrase next_rule wb
                Hnext Hcdb) as Htaskg.
  fold wg in Htaskg. rewrite Htaskg, Htaskb, Htb. reflexivity.
Qed.

Lemma X11_a_word_in_the_window_witness :
  monotone pause_clock
  /\ Py.split (Py.lower (Py.strip "please")) = ["please"]
  /\ (pause_clock 5 - pause_clock 0 <= 3)%Q
  /\ (2 <= pause_clock 6 - pause_clock 3)%Q
  /\ map t_content
       (tasks (exec (apply_rules pause_clock (event "audio_stt" "please"))
                 (exec (apply_rules pause_clock (event "audio_stt" "next"))
                    boot)))
     = ["next"; "next please"].
Proof.
  assert (Hnear : (pause_clock (ticks boot + 5) - pause_clock (ticks boot) <= 3)%Q).
  { unfold pause_clock. simpl. lra. }
  assert (Hover : (2 <= pause_clock (ticks boot + 6) - pause_clock (ticks boot + 3))%Q).
  { unfold pause_clock. simpl. lra. }
  assert (Hfree : forall T,
             triggered_phrases (self boot) !! "NEXT_SLIDE" = Some T ->
             ~ (pause_clock (ticks boot + 2) - T < 2)%Q).
  { intros T H. simpl in H. rewrite lookup_empty in H. discriminate. }
  split; [exact pause_clock_monotone|]. split; [reflexivity|].
  split; [exact Hnear|]. split; [exact Hover|].
  destruct (X11_a_word_in_the_window_fires_again pause_clock boot "please"
              "please" pause_clock_monotone eq_refl eq_refl eq_refl Hfree
              ltac:(discriminate) eq_refl eq_refl eq_refl Hnear Hover)
    as (H1 & _ & H2).
  rewrite H2, H1. reflexivity.
Defined.

(** ** Sources other than the microphone *)

Lemma print_same_window l : within same_window (print l).
Proof. intros w. repeat split. reflexivity. Qed.

Lemma apply_rules_other_source clock data :
  is_str "audio_stt" (dict_get "source" data JNull) = false ->
  within same_window (apply_rules clock data).
Proof.
  intros Hsrc. unfold apply_rules. rewrite Hsrc.
  destruct (dict_get "content" data (JStr ""));
    try (apply within_raise; typeclasses eauto).
  apply within_bind; [typeclasses eauto | apply print_same_window | intros _].
  destruct (_ || _); [apply within_ret; typeclasses eauto|].
  apply within_bind; [typeclasses eauto | apply within_ret; typeclasses eauto |].
  intros p. destruct (dict_get "source" data JNull);
    try (apply within_ret; typeclasses eauto);
    try (apply within_raise; typeclasses eauto).
  apply within_bind; [typeclasses eauto | apply within_gets; typeclasses eauto |].
  intros rs. apply check_rules_same_window.
Qed.

Lemma reachable_rules clock json_loads w0 w :
  reachable clock json_loads w0 w -> rules (self w) = rules (self w0).
Proof. intros H. apply (reachable_dispatched clock json_loads w0 w H). Qed.

(** X12.  Only events of the source ["audio_stt"] move the phrase window:
    an event of any other source leaves the words and the timestamps as
    they are, whatever its content.  And an event whose source is a string
    that the rule table does not list (the names are case sensitive) is
    dropped: [apply_rules] prints its one line and returns, in every state
    the process reaches with the table of [_initialize_rules]. *)
Theorem X12_other_sources_leave_the_window_alone
    (clock : nat -> Q) (json_loads : string -> option json) (w0 w : world)
    (data : list (string * json)) :
  rules (self w0) = _initialize_rules ->
  reachable clock json_loads w0 w ->
  dict_get "source" data JNull <> JStr "audio_stt" ->
  let w' := exec (apply_rules clock data) w in
  phrase_buffer (self w') = phrase_buffer (self w)
  /\ phrase_timestamps (self w') = phrase_timestamps (self w)
  /\ (forall src c,
        dict_get "source" data JNull = JStr src ->
        dict_get "content" data (JStr "") = JStr c ->
        src ∉ ["audio_stt"; "vision_vlm"; "gesture"] ->
        apply_rules clock data w
        = (Ok tt, with_stdout (stdout w ++ [PrintEvent (JStr src) (Py.strip c)]) w)).
Proof.
  intros Htable Hreach Hsrc w'.
  assert (His : is_str "audio_stt" (dict_get "source" data JNull) = false).
  { destruct (dict_get "source" data JNull) as [| | |s| |]; try reflexivity.
    unfold is_str. apply String.eqb_neq. intros E. apply Hsrc. rewrite <- E.
    reflexivity. }
  destruct (apply_rules_other_source clock data His w) as (Hb & Hs & _).
  split; [exact Hb|]. split; [exact Hs|].
  intros src c Esrc Ec Hunknown.
  assert (Hnone : rules (self w) !! src = None).
  { rewrite (reachable_rules clock json_loads w0 w Hreach), Htable.
    unfold _initialize_rules.
    rewrite !lookup_insert_ne, lookup_empty; [reflexivity| | |];
      intros <-; apply Hunknown.
    - do 2 apply list_elem_of_further. apply list_elem_of_here.
    - do 1 apply list_elem_of_further. apply list_elem_of_here.
    - apply list_elem_of_here. }
  unfold apply_rules. rewrite Ec, His, Esrc.
  unfold bind, print, modify, gets, ret. cbn [truthy].
  destruct (negb (negb (Py.is_empty src)) || Py.is_empty (Py.strip c));
    [reflexivity|].
  cbn [self with_stdout]. rewrite Hnone. reflexivity.
Qed.

Lemma X12_other_sources_witness :
  rules (self boot) = _initialize_rules
  /\ reachable every_second sample_loads boot after_first_next
  /\ dict_get "source" (event "Gesture" "next") JNull <> JStr "audio_stt"
  /\ tasks (exec (apply_rules every_second (event "Gesture" "next"))
              after_first_next)
     = tasks after_first_next.
Proof.
  assert (H : reachable every_second sample_loads boot after_first_next).
  { unfold after_first_next.
    eapply reachable_step; [|apply step_message]. apply reachable_start. }
  assert (Hs : dict_get "source" (event "Gesture" "next") JNull <> JStr "audio_stt")
    by discriminate.
  split; [reflexivity|]. split; [exact H|]. split; [exact Hs|].
  destruct (X12_other_sources_leave_the_window_alone every_second sample_loads
              boot after_first_next (event "Gesture" "next") eq_refl H Hs)
    as (_ & _ & Hdrop).
  unfold exec. rewrite (Hdrop "Gesture" "next" eq_refl eq_refl).
  - reflexivity.
  - intros Hin. repeat (apply elem_of_cons in Hin; destruct Hin as [Hin|Hin];
                        [discriminate|]).
    inversion Hin.
Defined.

(** ** The recent phrase and the words of the window *)

Lemma append_nil_r (s : string) : s +:+ "" = s.
Proof. induction s as [|c s IH]; [reflexivity|]. rewrite append_String, IH. reflexivity. Qed.

Lemma append_assoc (a b c : string) : (a +:+ b) +:+ c = a +:+ (b +:+ c).
Proof.
  induction a as [|x a IH]; [reflexivity|].
  rewrite !append_String, IH. reflexivity.
Qed.

Lemma lower_char_idem (c : ascii) : Py.lower_char (Py.lower_char c) = Py.lower_char c.
Proof. destruct c as [[] [] [] [] [] [] [] []]; reflexivity. Qed.

Lemma lowered_lower (s : string) : lowered (Py.lower s) = true.
Proof.
  induction s as [|c s IH]; [reflexivity|]. simpl.
  rewrite lower_char_idem, Ascii.eqb_refl. exact IH.
Qed.

Lemma lower_lowered (s : string) : lowered s = true -> Py.lower s = s.
Proof.
  induction s as [|c s IH]; [reflexivity|]. simpl.
  intros [Hc Hs]%andb_true_iff. apply Ascii.eqb_eq in Hc.
  rewrite Hc, IH by exact Hs. reflexivity.
Qed.

Lemma lowered_app (a b : string) : lowered (a +:+ b) = lowered a && lowered b.
Proof.
  induction a as [|x a IH]; [reflexivity|].
  rewrite append_String. simpl. rewrite IH. apply andb_assoc.
Qed.

Lemma spaceless_app (a b : string) : spaceless (a +:+ b) = spaceless a && spaceless b.
Proof.
  induction a as [|x a IH]; [reflexivity|].
  rewrite append_String. simpl. rewrite IH. apply andb_assoc.
Qed.

Lemma split_from_words (cur s : string) :
  spaceless cur = true -> lowered cur = true -> lowered s = true ->
  Forall (fun x => is_word x = true) (Py.split_from cur s).
Proof.
  revert cur. induction s as [|c s IH]; intros cur Hsp Hlo Hs; simpl.
  - destruct (Py.is_empty cur) eqn:E; [constructor|].
    constructor; [|constructor]. unfold is_word. rewrite E, Hsp, Hlo. reflexivity.
  - simpl in Hs. apply andb_true_iff in Hs. destruct Hs as [Hc Hs].
    destruct (Py.isspace c) eqn:Ec.
    + destruct (Py.is_empty cur) eqn:E; [apply IH; [reflexivity | reflexivity | exact Hs]|].
      constructor; [|apply IH; [reflexivity | reflexivity | exact Hs]].
      unfold is_word. rewrite E, Hsp, Hlo. reflexivity.
    + apply IH; [| |exact Hs].
      * rewrite spaceless_app, Hsp. simpl. rewrite Ec. reflexivity.
      * rewrite lowered_app, Hlo. simpl. rewrite Hc. reflexivity.
Qed.

Lemma split_lower_words (s : string) :
  Forall (fun x => is_word x = true) (Py.split (Py.lower s)).
Proof.
  apply split_from_words; [reflexivity | reflexivity | apply lowered_lower].
Qed.

Lemma split_from_spaceless (x cur rest : string) :
  spaceless x = true ->
  Py.split_from cur (x +:+ rest) = Py.split_from (cur +:+ x) rest.
Proof.
  revert cur. induction x as [|c x IH]; intros cur Hx.
  - rewrite append_nil_r. reflexivity.
  - simpl in Hx. apply andb_true_iff in Hx. destruct Hx as [Hc Hx].
    apply negb_true_iff in Hc. rewrite append_String. simpl. rewrite Hc.
    rewrite IH by exact Hx. rewrite append_assoc. reflexivity.
Qed.

Lemma join_cons (x y : string) (l : list string) :
  Py.join " " (x :: y :: l) = x +:+ (" " +:+ Py.join " " (y :: l)).
Proof. reflexivity. Qed.

Lemma split_join (ws : list string) :
  Forall (fun x => is_word x = true) ws -> Py.split (Py.join " " ws) = ws.
Proof.
  induction 1 as [|x ws Hx Hws IH]; [reflexivity|].
  unfold is_word in Hx. apply andb_true_iff in Hx. destruct Hx as [Hx _].
  apply andb_true_iff in Hx. destruct Hx as [Hne Hsp].
  apply negb_true_iff in Hne.
  destruct ws as [|y ws].
  - unfold Py.split. change (Py.join " " [x]) with x.
    rewrite <- (append_nil_r x) at 1. rewrite split_from_spaceless by exact Hsp.
    change ("" +:+ x) with x. simpl. rewrite Hne. reflexivity.
  - unfold Py.split in *. rewrite join_cons, split_from_spaceless by exact Hsp.
    change (" " +:+ Py.join " " (y :: ws)) with (String " " (Py.join " " (y :: ws))).
    change ("" +:+ x) with x. simpl Py.split_from. rewrite Hne. f_equal. exact IH.
Qed.

Lemma lowered_join (ws : list string) :
  Forall (fun x => is_word x = true) ws -> lowered (Py.join " " ws) = true.
Proof.
  induction 1 as [|x ws Hx Hws IH]; [reflexivity|].
  unfold is_word in Hx. apply andb_true_iff in Hx. destruct Hx as [_ Hlo].
  destruct ws as [|y ws]; [exact Hlo|].
  rewrite join_cons, lowered_app, Hlo.
  change (" " +:+ Py.join " " (y :: ws)) with (String " " (Py.join " " (y :: ws))).
  simpl. exact IH.
Qed.

Lemma same_buffer_words_ok w w' :
  phrase_buffer (self w') = phrase_buffer (self w) -> keeps words_ok w w'.
Proof. intros H Hw. unfold words_ok. rewrite H. exact Hw. Qed.

Lemma append_words_words_ok clock words :
  Forall (fun x => is_word x = true) words ->
  within (keeps words_ok) (for_each words (append_word clock)).
Proof.
  induction 1 as [|word words Hword _ IH]; simpl.
  - apply within_ret. typeclasses eauto.
  - apply within_bind; [typeclasses eauto | | intros _; exact IH].
    intros w Hw. destruct (append_word_run clock word w) as (w' & E & Hb & _).
    rewrite E. simpl. unfold words_ok. rewrite Hb.
    destruct (deque_append_drop word (phrase_buffer (self w))) as [k ->].
    apply Forall_app. split; [apply Forall_drop_weak, Hw|].
    constructor; [exact Hword | constructor].
Qed.

Lemma clean_loop_words_ok now stamps :
  within (keeps words_ok) (clean_loop now stamps).
Proof.
  induction stamps as [|t0 stamps IH]; simpl.
  - apply within_ret; typeclasses eauto.
  - destruct (QMicromega.Qlt_bool _ _); [|apply within_ret; typeclasses eauto].
    apply within_bind; [typeclasses eauto| |intros _].
    { intros w. unfold popleft_timestamps, bind, gets. simpl.
      destruct (phrase_timestamps (self w)); intros H; exact H. }
    apply within_bind; [typeclasses eauto| |intros _; exact IH].
    intros w. unfold popleft_buffer, bind, gets. simpl.
    destruct (phrase_buffer (self w)) as [|b buffer] eqn:E; intros H.
    + exact H.
    + unfold words_ok in *. simpl. rewrite E in H.
      inversion H; assumption.
Qed.

Lemma clean_words_ok clock : within (keeps words_ok) (_clean_old_phrases clock).
Proof.
  unfold _clean_old_phrases.
  apply within_bind; [typeclasses eauto | | intros now].
  { intros w H. exact H. }
  apply within_bind; [typeclasses eauto | apply within_gets; typeclasses eauto |].
  intros stamps. apply clean_loop_words_ok.
Qed.

Lemma reachable_words_ok clock json_loads w0 w :
  words_ok w0 -> reachable clock json_loads w0 w -> words_ok w.
Proof.
  intros H0 Hreach. revert H0.
  apply (frame_reachable clock json_loads (keeps words_ok));
    [| | | | | |exact Hreach].
  - intros l v H. exact H.
  - intros s. apply append_words_words_ok, split_lower_words.
  - apply clean_words_ok.
  - apply frame_rules; [typeclasses eauto|]. intros src p r v.
    apply same_buffer_words_ok. apply (check_rule_same_window clock src p r v).
  - intros ok v. apply same_buffer_words_ok.
    destruct (run_task_same_agent ok v) as (-> & _). reflexivity.
  - intros ok v. apply same_buffer_words_ok.
    destruct (connect_same_agent ok v) as (-> & _). reflexivity.
Qed.

(** X13.  Start the process with paired deques and a phrase buffer of
    words (not empty, without white space, in lower case), for instance
    with an empty buffer.  Whenever [apply_rules] has appended the words of a
    content and reads the phrase, the buffer holds words only, and the
    phrase returned is exactly these words joined by single spaces: the
    [lower] of [_get_recent_phrase] changes nothing, and splitting the
    phrase gives the buffer back. *)
Theorem X13_the_phrase_is_the_window_joined
    (clock : nat -> Q) (json_loads : string -> option json) (w0 w : world)
    (content : string) :
  lockstep w0 ->
  words_ok w0 ->
  reachable clock json_loads w0 w ->
  let wr := exec (for_each (Py.split (Py.lower content)) (append_word clock)) w in
  let w' := exec (_get_recent_phrase clock) wr in
  eval (_get_recent_phrase clock) wr = Ok (Py.join " " (phrase_buffer (self w')))
  /\ Py.split (Py.join " " (phrase_buffer (self w'))) = phrase_buffer (self w')
  /\ Forall (fun x => is_word x = true) (phrase_buffer (self w'))
  /\ Forall (fun x => is_word x = true) (phrase_buffer (self w)).
Proof.
  intros Hl0 Hw0 Hreach wr w'.
  pose proof (reachable_lockstep clock json_loads w0 w Hl0 Hreach) as Hl.
  pose proof (reachable_words_ok clock json_loads w0 w Hw0 Hreach) as Hw.
  destruct (append_words_run clock (Py.split (Py.lower content)) w Hl)
    as (w1 & E1 & _ & Hl1).
  pose proof (append_words_words_ok clock _ (split_lower_words content) w Hw)
    as Hw1.
  assert (Hwr : wr = w1) by (unfold wr, exec; rewrite E1; reflexivity).
  rewrite E1 in Hw1. simpl in Hw1. clearbody wr. subst wr.
  destruct (get_recent_phrase_run clock w1 Hl1) as (w2 & E2 & Hb2 & _).
  assert (Hw' : w' = w2) by (unfold w', exec; rewrite E2; reflexivity).
  clearbody w'. subst w'.
  assert (Hw2 : words_ok w2).
  { unfold words_ok. rewrite Hb2. apply Forall_drop_weak, Hw1. }
  unfold eval. rewrite E2. simpl. rewrite <- Hb2.
  split; [|split; [|split]].
  - f_equal. apply lower_lowered, lowered_join, Hw2.
  - apply split_join, Hw2.
  - exact Hw2.
  - exact Hw.
Qed.

Lemma X13_the_phrase_witness :
  lockstep boot
  /\ words_ok boot
  /\ reachable every_second sample_loads boot boot
  /\ eval (_get_recent_phrase every_second)
       (exec (for_each (Py.split (Py.lower "Open  PRESENTATION"))
                (append_word every_second)) boot)
     = Ok "open presentation".
Proof.
  assert (H0 : lockstep boot) by (split; simpl; [reflexivity | lia]).
  assert (H1 : words_ok boot) by constructor.
  assert (H2 : reachable every_second sample_loads boot boot) by constructor.
  split; [exact H0|]. split; [exact H1|]. split; [exact H2|].
  exact (proj1 (X13_the_phrase_is_the_window_joined every_second sample_loads
                  boot boot "Open  PRESENTATION" H0 H1 H2)).
Defined.

(** ** When every send succeeds *)

(** X14.  Let [main] serve with a connection to the PDF server at hand,
    the event loop not ahead of the queue, and what was sent so far being
    what was due.  As long as no send fails, the connection stays the same
    and the messages sent are exactly the commands of the tasks that have
    run and whose action is a slide action, in the order of the queue: no
    such command is lost.  Once every task has run, a command has been
    sent for each task of the queue with a slide action. *)
Theorem X14_every_due_command_is_sent
    (clock : nat -> Q) (json_loads : string -> option json) (w w' : world)
    (k : nat) :
  PDF_SERVER_CONNECTION w = Some k ->
  (tasks_run w <= length (tasks w))%nat ->
  wire w = due w ->
  delivering clock json_loads w w' ->
  PDF_SERVER_CONNECTION w' = Some k
  /\ wire w'
     = map command_of
         (List.filter (fun t => str_in_list (t_action t) slide_actions)
            (take (tasks_run w') (tasks w')))
  /\ (tasks_run w' = length (tasks w') ->
      wire w'
      = map command_of
          (List.filter (fun t => str_in_list (t_action t) slide_actions)
             (tasks w'))).
Proof.
  intros Hk Hle Hdue Hrun.
  assert (H : PDF_SERVER_CONNECTION w' = Some k
              /\ (tasks_run w' <= length (tasks w'))%nat /\ wire w' = due w').
  { induction Hrun as [w0 | msg w0 w1 _ IH | w0 w1 _ IH].
    - split; [exact Hk|]. split; [exact Hle | exact Hdue].
    - destruct (IH Hk Hle Hdue) as (H1 & H2 & H3).
      destruct (handle_message_dispatched clock json_loads msg w1)
        as (_ & new & Ht & _).
      destruct (handle_message_same_globals clock json_loads msg w1)
        as (_ & Hp & Hr & Hw & _).
      fold (exec (handle_message clock json_loads msg) w1) in Ht, Hp, Hr, Hw.
      split; [congruence|]. split.
      + rewrite Hr, Ht, length_app. lia.
      + rewrite Hw, (due_grow w1 _ new H2 Ht Hr). exact H3.
    - destruct (IH Hk Hle Hdue) as (H1 & H2 & H3).
      destruct (tasks w1 !! tasks_run w1) as [t|] eqn:Hl.
      + destruct (run_task_run true w1 t Hl) as (Ht & Hr & _ & Hw & Hp).
        rewrite andb_false_r in Hp. split; [congruence|]. split.
        * rewrite Hr, Ht. apply lookup_lt_Some in Hl. lia.
        * rewrite Hw, (due_run w1 _ t Hl Ht Hr), H3, H1.
          rewrite bool_decide_eq_true_2 by (eexists; reflexivity).
          rewrite !andb_true_r. reflexivity.
      + rewrite run_task_idle by exact Hl. split; [exact H1|].
        split; [exact H2 | exact H3]. }
  destruct H as (H1 & H2 & H3).
  split; [exact H1|]. split; [exact H3|].
  intros Hall. rewrite H3. unfold due. rewrite Hall, firstn_all. reflexivity.
Qed.

Lemma X14_every_due_command_witness :
  PDF_SERVER_CONNECTION connected = Some 0%nat
  /\ delivering every_second sample_loads connected
       (exec (run_task true)
          (exec (handle_message every_second sample_loads gesture_next_message)
             connected))
  /\ wire (exec (run_task true)
             (exec (handle_message every_second sample_loads gesture_next_message)
                connected))
     = [ {| c_action := "NEXT_SLIDE"; c_params := [] |} ].
Proof.
  assert (H : delivering every_second sample_loads connected
                (exec (run_task true)
                   (exec (handle_message every_second sample_loads
                            gesture_next_message) connected))).
  { apply delivering_task, delivering_message, delivering_start. }
  split; [reflexivity|]. split; [exact H|].
  exact (proj1 (proj2 (X14_every_due_command_is_sent every_second sample_loads
                         connected _ 0%nat eq_refl (Nat.le_refl 0) eq_refl H))).
Defined.

(** ** The case of the content *)

Lemma alike_ret {A} (a : A) : alike (ret a) (ret a).
Proof. intros w1 w2 H. split; [reflexivity | exact H]. Qed.

Lemma alike_raise {A} (e : exn) : alike (raise (A:=A) e) (raise e).
Proof. intros w1 w2 H. split; [reflexivity | exact H]. Qed.

Lemma alike_bind {A B} (m1 m2 : M A) (k1 k2 : A -> M B) :
  alike m1 m2 -> (forall a, alike (k1 a) (k2 a)) -> alike (bind m1 k1) (bind m2 k2).
Proof.
  intros Hm Hk w1 w2 H. unfold bind. destruct (Hm w1 w2 H) as [Hr Hw].
  destruct (m1 w1) as [[a1|e1] v1], (m2 w2) as [[a2|e2] v2]; simpl in Hr, Hw;
    try discriminate.
  - injection Hr as ->. apply Hk, Hw.
  - injection Hr as ->. split; [reflexivity | exact Hw].
Qed.

Lemma alike_for_each {A} (l : list A) (body : A -> M unit) :
  (forall x, alike (body x) (body x)) -> alike (for_each l body) (for_each l body).
Proof.
  intros H. induction l as [|x l IH]; simpl.
  - apply alike_ret.
  - apply alike_bind; [apply H | intros _; exact IH].
Qed.

Lemma alike_print l1 l2 : alike (print l1) (print l2).
Proof. intros w1 w2 H. split; [reflexivity | exact H]. Qed.

Lemma alike_gets {A} (f : world -> A) :
  (forall w1 w2, same_but_stdout w1 w2 -> f w1 = f w2) -> alike (gets f) (gets f).
Proof. intros Hf w1 w2 H. split; [simpl; f_equal; apply Hf, H | exact H]. Qed.

Lemma alike_modify (f : world -> world) :
  (forall w1 w2, same_but_stdout w1 w2 -> same_but_stdout (f w1) (f w2)) ->
  alike (modify f) (modify f).
Proof. intros Hf w1 w2 H. split; [reflexivity | apply Hf, H]. Qed.

Lemma alike_with_self (f : OrchestratorAgent -> OrchestratorAgent) :
  alike (modify (with_self f)) (modify (with_self f)).
Proof.
  apply alike_modify. intros w1 w2 (H1 & H2 & H3 & H4 & H5 & H6 & H7 & H8).
  repeat split; simpl; congruence.
Qed.

Lemma alike_time_time clock : alike (time_time clock) (time_time clock).
Proof.
  intros w1 w2 (H1 & H2 & H3 & H4 & H5 & H6 & H7 & H8). unfold time_time. simpl.
  rewrite H4. repeat split; simpl; congruence.
Qed.

Lemma alike_append_word clock word :
  alike (append_word clock word) (append_word clock word).
Proof.
  unfold append_word.
  apply alike_bind; [apply alike_gets; intros w1 w2 H; f_equal; apply H|].
  intros buffer. apply alike_bind; [apply alike_with_self | intros _].
  apply alike_bind; [apply alike_time_time | intros now].
  apply alike_bind; [apply alike_gets; intros w1 w2 H; f_equal; apply H|].
  intros stamps. apply alike_with_self.
Qed.

Lemma alike_clean_loop now stamps :
  alike (clean_loop now stamps) (clean_loop now stamps).
Proof.
  induction stamps as [|t0 stamps IH]; simpl; [apply alike_ret|].
  destruct (QMicromega.Qlt_bool _ _); [|apply alike_ret].
  apply alike_bind; [|intros _; apply alike_bind; [|intros _; exact IH]].
  - unfold popleft_timestamps.
    apply alike_bind; [apply alike_gets; intros w1 w2 H; f_equal; apply H|].
    intros [|t l]; [apply alike_raise | apply alike_with_self].
  - unfold popleft_buffer.
    apply alike_bind; [apply alike_gets; intros w1 w2 H; f_equal; apply H|].
    intros [|t l]; [apply alike_raise | apply alike_with_self].
Qed.

Lemma alike_get_recent_phrase clock :
  alike (_get_recent_phrase clock) (_get_recent_phrase clock).
Proof.
  unfold _get_recent_phrase, _clean_old_phrases.
  apply alike_bind; [|intros _].
  - apply alike_bind; [apply alike_time_time | intros now].
    apply alike_bind; [apply alike_gets; intros w1 w2 H; f_equal; apply H|].
    intros stamps. apply alike_clean_loop.
  - apply alike_bind; [apply alike_gets; intros w1 w2 H; f_equal; apply H|].
    intros buffer. apply alike_ret.
Qed.

Lemma alike_check_rule clock src p r :
  alike (check_rule clock src p r) (check_rule clock src p r).
Proof.
  unfold check_rule. destruct (Py.str_in _ _); [|apply alike_ret].
  apply alike_bind.
  - unfold _was_recently_triggered.
    apply alike_bind; [apply alike_time_time | intros now].
    apply alike_bind; [apply alike_gets; intros w1 w2 H; f_equal; apply H|].
    intros registry. destruct (registry !! action r); [|apply alike_ret].
    destruct (QMicromega.Qlt_bool _ _); apply alike_ret.
  - intros [|]; simpl; [apply alike_print|].
    apply alike_bind; [apply alike_print | intros _].
    apply alike_bind.
    + unfold _mark_triggered.
      apply alike_bind; [apply alike_time_time | intros now].
      apply alike_with_self.
    + intros _. unfold create_task. intros w1 w2 H. split; [reflexivity|].
      destruct H as (H1 & H2 & H3 & H4 & H5 & H6 & H7 & H8).
      repeat split; simpl; congruence.
Qed.

Lemma is_empty_lower s : Py.is_empty (Py.lower s) = Py.is_empty s.
Proof. destruct s; reflexivity. Qed.

(** X15.  Neither the case of the content nor white space around it
    matters.  Two events of the same source whose contents are equal once
    stripped and lowercased are handled alike by [apply_rules] in any
    state: both return or both raise the same exception, and they leave
    the same agent (phrase window, registry, rules), the same clock and the
    same task queue. *)
Theorem X15_the_case_of_the_content_does_not_matter
    (clock : nat -> Q) (data1 data2 : list (string * json)) (c1 c2 : string)
    (w : world) :
  dict_get "source" data1 JNull = dict_get "source" data2 JNull ->
  dict_get "content" data1 (JStr "") = JStr c1 ->
  dict_get "content" data2 (JStr "") = JStr c2 ->
  Py.lower (Py.strip c1) = Py.lower (Py.strip c2) ->
  let w1 := exec (apply_rules clock data1) w in
  let w2 := exec (apply_rules clock data2) w in
  eval (apply_rules clock data1) w = eval (apply_rules clock data2) w
  /\ self w1 = self w2
  /\ ticks w1 = ticks w2
  /\ tasks w1 = tasks w2.
Proof.
  intros Hsrc Hc1 Hc2 Hstrip w1 w2.
  assert (Hempty : Py.is_empty (Py.strip c1) = Py.is_empty (Py.strip c2)).
  { rewrite <- (is_empty_lower (Py.strip c1)), Hstrip. apply is_empty_lower. }
  assert (H : alike (apply_rules clock data1) (apply_rules clock data2)).
  { unfold apply_rules. rewrite Hc1, Hc2, Hsrc, Hstrip, Hempty.
    apply alike_bind; [apply alike_print | intros _].
    destruct (_ || _); [apply alike_ret|].
    apply alike_bind.
    - destruct (is_str _ _); [|apply alike_ret].
      apply alike_bind; [|intros _].
      { apply alike_for_each. intros word. apply alike_append_word. }
      apply alike_bind; [apply alike_get_recent_phrase | intros p].
      apply alike_bind; [apply alike_print | intros _]. apply alike_ret.
    - intros p. destruct (dict_get "source" data2 JNull);
        try apply alike_ret; try apply alike_raise.
      apply alike_bind; [apply alike_gets; intros v1 v2 Hv; do 3 f_equal; apply Hv|].
      intros rs. apply alike_for_each. intros r. apply alike_check_rule. }
  destruct (H w w) as (Hr & Hs & _ & _ & Ht & Hq & _).
  { repeat split. }
  split; [exact Hr|]. split; [exact Hs|]. split; [exact Ht | exact Hq].
Qed.

Lemma X15_the_case_witness :
  Py.lower (Py.strip " NEXT ") = Py.lower (Py.strip "next")
  /\ tasks (exec (apply_rules every_second (event "gesture" " NEXT ")) boot)
     = tasks (exec (apply_rules every_second (event "gesture" "next")) boot).
Proof.
  split; [reflexivity|].
  exact (proj2 (proj2 (proj2 (X15_the_case_of_the_content_does_not_matter
                                every_second (event "gesture" " NEXT ")
                                (event "gesture" "next") " NEXT " "next" boot
                                eq_refl eq_refl eq_refl eq_refl)))).
Defined.
